(** * Browser (WebDriver BiDi session manager)

    A shallow embedding of
    [packages/puppeteer-core/src/common/bidi/Browser.ts].

    The class is stateful and talks to collaborators that live in other
    files (Connection, BrowsingContext, BrowserContext, Target).  The
    embedding threads an explicit state through every method, keeps a
    list of the observable effects of each call (commands sent, handlers
    registered, events emitted, disposal) and returns either a value or
    the thrown error.  A method that throws keeps the mutations it made
    before the throw, as in JavaScript.

    The trace of a call holds what Browser.ts itself does; what the
    constructors of the collaborators do on the connection is not part
    of it.  Strings are byte strings.  [toLocaleLowerCase] depends on
    the locale of the host: [create_in] takes the lowering of the host
    as a parameter and [create] is its instance for the locales that
    map A-Z to a-z.

    The only method with [await]s between its changes of the state is
    [#onContextDestroyed].  It is given twice: as one call that runs to
    its end, and in the pieces between its [await]s, which
    [run_schedule] interleaves with the events that arrive in the
    meantime. *)

From Stdlib Require Import String Ascii List Bool Arith Lia.
Import ListNotations.
Local Open Scope string_scope.
Local Open Scope list_scope.

(** ** Results and errors *)

Definition Error := string.

Inductive Result (A : Type) : Type :=
| Ok (a : A)
| Err (e : Error).
Arguments Ok {A} a.
Arguments Err {A} e.

Definition is_ok {A} (r : Result A) : bool :=
  match r with Ok _ => true | Err _ => false end.

(** ** JavaScript [Map<string, V>]

    Keys are unique and iteration follows insertion order; [set] on a
    key that is present replaces the value in place. *)

Module JsMap.

Definition t (V : Type) : Type := list (string * V).

Definition empty {V} : t V := [].

Fixpoint get {V} (k : string) (m : t V) : option V :=
  match m with
  | [] => None
  | (k', v) :: r => if String.eqb k' k then Some v else get k r
  end.

Fixpoint set {V} (k : string) (v : V) (m : t V) : t V :=
  match m with
  | [] => [(k, v)]
  | (k', v') :: r =>
      if String.eqb k' k then (k, v) :: r else (k', v') :: set k v r
  end.

Definition delete {V} (k : string) (m : t V) : t V :=
  filter (fun kv => negb (String.eqb (fst kv) k)) m.

Definition keys {V} (m : t V) : list string := map fst m.

Definition values {V} (m : t V) : list V := map snd m.

(** Number of entries stored under [k]. *)
Definition entries {V} (k : string) (m : t V) : nat :=
  length (filter (fun kv => String.eqb (fst kv) k) m).

End JsMap.

(** ** Protocol payloads *)

(** [Bidi.BrowsingContext.Info]: the parameters of contextCreated and
    contextDestroyed, and the elements of the getTree result.  [parent]
    is [string | null | undefined]. *)
Record Info : Type := mkInfo {
  context : string;
  parent : option string;
  url : string
}.

(** [Bidi.BrowsingContext.NavigationInfo]. *)
Record NavigationInfo : Type := mkNavigationInfo {
  nav_context : string;
  nav_url : string
}.

(** JavaScript truthiness of a [string | null | undefined]: the empty
    string is falsy, like [null] and [undefined]. *)
Definition truthy (p : option string) : bool :=
  match p with
  | None => false
  | Some s => negb (String.eqb s "")
  end.

(** ** Objects *)

Definition ContextRef := nat.
Definition ArrayRef := nat.
Definition Viewport := nat.
Definition ChildProcess := nat.

(** A [BrowsingContext] object (BrowsingContext.js).

    Modelled from the spec: the class is not part of this file; it has
    an id, an optional parent id and the current URL, all taken from the
    event payload it is constructed from. *)
Record BrowsingContext : Type := mkBrowsingContext {
  bc_id : string;
  bc_parent : option string;
  bc_url : string
}.

(** A [BrowserContext] object (BrowserContext.js); [ctx_oid] is the
    identity of the object, which [!==] compares.

    Modelled from the spec: the class is not part of this file; it has
    a default-viewport override and the flag marking the default
    context. *)
Record BrowserContext : Type := mkBrowserContext {
  ctx_oid : nat;
  ctx_defaultViewport : option Viewport;
  ctx_isDefault : bool
}.

Definition same_context (a b : BrowserContext) : bool :=
  Nat.eqb (ctx_oid a) (ctx_oid b).

(** [BiDiPageTarget] and [BiDiTarget] (Target.js). *)
Inductive TargetKind : Type := PageTarget | NestedTarget.

Record Target : Type := mkTarget {
  t_kind : TargetKind;
  t_browserContext : BrowserContext;
  t_context : ContextRef
}.

(** ** Connection event handlers *)

Definition EventName := string.

Inductive BoundMethod : Type :=
| MOnContextCreated
| MOnContextDestroyed
| MOnContextNavigation.

(** A listener registered on the connection: one of the function objects
    the Browser made with [bind(this)] ([slot] tells the four objects
    apart), or a listener of somebody else. *)
Inductive Handler : Type :=
| BrowserHandler (slot : nat) (m : BoundMethod)
| OtherHandler (n : nat).

Definition method_eqb (a b : BoundMethod) : bool :=
  match a, b with
  | MOnContextCreated, MOnContextCreated => true
  | MOnContextDestroyed, MOnContextDestroyed => true
  | MOnContextNavigation, MOnContextNavigation => true
  | _, _ => false
  end.

Definition handler_eqb (a b : Handler) : bool :=
  match a, b with
  | BrowserHandler s m, BrowserHandler s' m' => Nat.eqb s s' && method_eqb m m'
  | OtherHandler n, OtherHandler n' => Nat.eqb n n'
  | _, _ => false
  end.

Definition is_browser_handler (h : Handler) : bool :=
  match h with BrowserHandler _ _ => true | OtherHandler _ => false end.

(** ** Heap

    BrowsingContext objects are mutable (their URL is updated) and are
    shared between the connection's index and the targets; arrays handed
    to callers are shared with whoever else holds them. *)

Inductive JsArray : Type :=
| ArrContexts (l : list BrowserContext)
| ArrTargets (l : list Target).

Record Heap : Type := mkHeap {
  h_objects : list BrowsingContext;
  h_arrays : list JsArray;
  h_next_oid : nat
}.

Definition alloc_object (o : BrowsingContext) (h : Heap) : ContextRef * Heap :=
  (length (h_objects h),
   mkHeap (h_objects h ++ [o]) (h_arrays h) (h_next_oid h)).

Definition read_object (r : ContextRef) (h : Heap) : option BrowsingContext :=
  nth_error (h_objects h) r.

Fixpoint list_update {A} (l : list A) (i : nat) (f : A -> A) : list A :=
  match l, i with
  | [], _ => []
  | x :: r, 0 => f x :: r
  | x :: r, S j => x :: list_update r j f
  end.

Definition update_object (r : ContextRef) (f : BrowsingContext -> BrowsingContext)
    (h : Heap) : Heap :=
  mkHeap (list_update (h_objects h) r f) (h_arrays h) (h_next_oid h).

Definition alloc_array (a : JsArray) (h : Heap) : ArrayRef * Heap :=
  (length (h_arrays h),
   mkHeap (h_objects h) (h_arrays h ++ [a]) (h_next_oid h)).

Definition read_array (r : ArrayRef) (h : Heap) : option JsArray :=
  nth_error (h_arrays h) r.

Definition update_array (r : ArrayRef) (f : JsArray -> JsArray) (h : Heap) : Heap :=
  mkHeap (h_objects h) (list_update (h_arrays h) r f) (h_next_oid h).

Definition fresh_oid (h : Heap) : nat * Heap :=
  (h_next_oid h, mkHeap (h_objects h) (h_arrays h) (S (h_next_oid h))).

(** The BrowserContext array stored at [r] (empty when [r] holds no such
    array). *)
Definition contexts_at (r : ArrayRef) (h : Heap) : list BrowserContext :=
  match read_array r h with
  | Some (ArrContexts l) => l
  | _ => []
  end.

Definition targets_at (r : ArrayRef) (h : Heap) : list Target :=
  match read_array r h with
  | Some (ArrTargets l) => l
  | _ => []
  end.

(** In-place mutation of an array by a holder of the reference
    ([push], [pop], [splice], [length = 0], ...). *)
Definition mutate_contexts (r : ArrayRef)
    (f : list BrowserContext -> list BrowserContext) (h : Heap) : Heap :=
  update_array r (fun a => match a with
                           | ArrContexts l => ArrContexts (f l)
                           | ArrTargets l => ArrTargets l
                           end) h.

Definition mutate_targets (r : ArrayRef)
    (f : list Target -> list Target) (h : Heap) : Heap :=
  update_array r (fun a => match a with
                           | ArrTargets l => ArrTargets (f l)
                           | ArrContexts l => ArrContexts l
                           end) h.

(** ** Commands and replies *)

Inductive Command : Type :=
| SessionNew (acceptInsecureCerts : option bool)
| SessionSubscribe (events : list string)
| BrowsingContextGetTree.

(** [result.capabilities] of session.new. *)
Record Capabilities : Type := mkCapabilities {
  cap_browserName : option string;
  cap_browserVersion : option string
}.

(** ** Connection

    Modelled from the spec: Connection.js is not part of this file.  The
    connection has the endpoint [url], the [closed] status, the
    listeners registered with [on], and an index of browsing contexts;
    [send] is a round trip that may fail, so the replies of the remote
    end are part of the connection. *)
Record Connection : Type := mkConnection {
  conn_url : string;
  conn_closed : bool;
  conn_handlers : list (EventName * Handler);
  conn_index : JsMap.t ContextRef;
  reply_session_new : Result Capabilities;
  reply_session_subscribe : list string -> Result unit;
  reply_getTree : Result (list Info)
}.

Definition set_closed (b : bool) (c : Connection) : Connection :=
  mkConnection (conn_url c) b (conn_handlers c) (conn_index c)
    (reply_session_new c) (reply_session_subscribe c) (reply_getTree c).

Definition set_handlers (l : list (EventName * Handler)) (c : Connection) : Connection :=
  mkConnection (conn_url c) (conn_closed c) l (conn_index c)
    (reply_session_new c) (reply_session_subscribe c) (reply_getTree c).

Definition set_index (m : JsMap.t ContextRef) (c : Connection) : Connection :=
  mkConnection (conn_url c) (conn_closed c) (conn_handlers c) m
    (reply_session_new c) (reply_session_subscribe c) (reply_getTree c).

Definition registration_eqb (a b : EventName * Handler) : bool :=
  String.eqb (fst a) (fst b) && handler_eqb (snd a) (snd b).

(** [off] removes one registration of the listener, the first one. *)
Fixpoint remove_first (x : EventName * Handler) (l : list (EventName * Handler))
    : list (EventName * Handler) :=
  match l with
  | [] => []
  | y :: r => if registration_eqb y x then r else y :: remove_first x r
  end.

(** ** Observable effects of a call *)

Inductive BrowserEvent : Type := TargetCreated | TargetDestroyed | TargetChanged.

Inductive BrowsingContextEvent : Type := Created | Destroyed.

Inductive Effect : Type :=
| ESend (c : Command)                      (* connection.send *)
| EDebugError (e : Error)                  (* debugError(err) *)
| EOn (n : EventName) (h : Handler)        (* connection.on *)
| EOff (n : EventName) (h : Handler)       (* connection.off *)
| EDispose                                 (* connection.dispose() *)
| ECloseCallback                           (* closeCallback.call(null) *)
| EProcessOnceClose (p : ChildProcess)     (* process.once('close', ...) *)
| EDisconnected                            (* emit(Disconnected) *)
| EBrowserEmit (ev : BrowserEvent) (t : Target)
| EBrowserContextEmit (bc : BrowserContext) (ev : BrowserEvent) (t : Target)
| EBrowsingContextEmit (on_ctx : ContextRef) (ev : BrowsingContextEvent)
    (c : ContextRef)
| EPageClose (t : Target)                  (* (await target.page())?.close().catch(debugError) *)
| ENewPage (bc : BrowserContext).          (* browserContext.newPage() *)

(** ** The Browser object and the state it runs in *)

Record Options : Type := mkOptions {
  opt_process : option ChildProcess;
  (** what calling the close callback does: resolve or reject *)
  opt_closeCallback : option (Result unit);
  opt_defaultViewport : option Viewport;
  opt_ignoreHTTPSErrors : option bool
}.

Record Browser : Type := mkBrowser {
  p_browserName : string;
  p_browserVersion : string;
  p_process : option ChildProcess;
  p_closeCallback : option (Result unit);
  p_defaultViewport : option Viewport;
  p_defaultContext : BrowserContext;
  p_targets : JsMap.t Target;
  p_contexts : ArrayRef;
  p_connectionEventHandlers : list (EventName * Handler)
}.

Definition set_targets (m : JsMap.t Target) (b : Browser) : Browser :=
  mkBrowser (p_browserName b) (p_browserVersion b) (p_process b)
    (p_closeCallback b) (p_defaultViewport b) (p_defaultContext b) m
    (p_contexts b) (p_connectionEventHandlers b).

Definition set_contexts (r : ArrayRef) (b : Browser) : Browser :=
  mkBrowser (p_browserName b) (p_browserVersion b) (p_process b)
    (p_closeCallback b) (p_defaultViewport b) (p_defaultContext b)
    (p_targets b) r (p_connectionEventHandlers b).

Record World : Type := mkWorld {
  conn : Connection;
  heap : Heap
}.

Record St : Type := mkSt {
  browser : Browser;
  world : World
}.

(** ** A state, error and trace monad *)

Definition M (S A : Type) : Type := S -> Result A * S * list Effect.

Definition ret {S A} (a : A) : M S A := fun s => (Ok a, s, []).

Definition throw {S A} (e : Error) : M S A := fun s => (Err e, s, []).

Definition bind {S A B} (m : M S A) (k : A -> M S B) : M S B :=
  fun s =>
    match m s with
    | (Ok a, s1, t1) =>
        match k a s1 with
        | (r, s2, t2) => (r, s2, t1 ++ t2)
        end
    | (Err e, s1, t1) => (Err e, s1, t1)
    end.

(** [try { m } catch (err) { h err }] *)
Definition try_catch {S A} (m : M S A) (h : Error -> M S A) : M S A :=
  fun s =>
    match m s with
    | (Ok a, s1, t1) => (Ok a, s1, t1)
    | (Err e, s1, t1) =>
        match h e s1 with
        | (r, s2, t2) => (r, s2, t1 ++ t2)
        end
    end.

Definition effect {S} (e : Effect) : M S unit := fun s => (Ok tt, s, [e]).

Definition gets {S A} (f : S -> A) : M S A := fun s => (Ok (f s), s, []).

Definition modify {S} (f : S -> S) : M S unit := fun s => (Ok tt, f s, []).

Definition of_result {S A} (r : Result A) : M S A := fun s => (r, s, []).

Declare Scope js_scope.
Delimit Scope js_scope with js.
Notation "x <- m ;; k" := (bind m (fun x => k))
  (at level 100, m at next level, right associativity) : js_scope.
Notation "m ;;; k" := (bind m (fun _ => k))
  (at level 100, right associativity) : js_scope.
Local Open Scope js_scope.

(** [for (const x of l) { f x }] *)
Fixpoint for_each {S A} (l : list A) (f : A -> M S unit) : M S unit :=
  match l with
  | [] => ret tt
  | x :: r => f x ;;; for_each r f
  end.

Definition result_of {S A} (x : Result A * S * list Effect) : Result A := fst (fst x).
Definition state_of {S A} (x : Result A * S * list Effect) : S := snd (fst x).
Definition effects_of {S A} (x : Result A * S * list Effect) : list Effect := snd x.

(** Run a method of the Browser [b] in a world; on failure only the
    world survives. *)
Definition with_browser {A} (b : Browser) (m : M St A) : M World (A * Browser) :=
  fun w =>
    match m (mkSt b w) with
    | (Ok a, s, t) => (Ok (a, browser s), world s, t)
    | (Err e, s, t) => (Err e, world s, t)
    end.

Definition liftW {A} (m : M World A) : M St A :=
  fun s =>
    match m (world s) with
    | (r, w, t) => (r, mkSt (browser s) w, t)
    end.

Definition modify_browser (f : Browser -> Browser) : M St unit :=
  modify (fun s => mkSt (f (browser s)) (world s)).

Definition modify_conn (f : Connection -> Connection) : M World unit :=
  modify (fun w => mkWorld (f (conn w)) (heap w)).

Definition modify_heap (f : Heap -> Heap) : M World unit :=
  modify (fun w => mkWorld (conn w) (f (heap w))).

(** ** Connection methods

    Modelled from the spec: Connection.js is not part of this file.
    [send] is a round trip that may fail; [on] and [off] subscribe and
    unsubscribe a listener; [dispose] tears the connection down, after
    which [closed] is true; [getBrowsingContext] fails when the id is
    unknown; [getTopLevelContext] resolves the root ancestor of an id,
    following parent ids through the index; [registerBrowsingContexts]
    puts a context into the index under its id. *)
Module Conn.

Definition send_session_new (accept : option bool) : M World Capabilities :=
  effect (ESend (SessionNew accept)) ;;;
  r <- gets (fun w => reply_session_new (conn w)) ;;
  of_result r.

Definition send_session_subscribe (events : list string) : M World unit :=
  effect (ESend (SessionSubscribe events)) ;;;
  r <- gets (fun w => reply_session_subscribe (conn w) events) ;;
  of_result r.

Definition send_getTree : M World (list Info) :=
  effect (ESend BrowsingContextGetTree) ;;;
  r <- gets (fun w => reply_getTree (conn w)) ;;
  of_result r.

Definition on (n : EventName) (h : Handler) : M World unit :=
  effect (EOn n h) ;;;
  modify_conn (fun c => set_handlers (conn_handlers c ++ [(n, h)]) c).

Definition off (n : EventName) (h : Handler) : M World unit :=
  effect (EOff n h) ;;;
  modify_conn (fun c => set_handlers (remove_first (n, h) (conn_handlers c)) c).

Definition dispose : M World unit :=
  effect EDispose ;;;
  modify_conn (set_closed true).

Definition closed : M World bool := gets (fun w => conn_closed (conn w)).

Definition registerBrowsingContexts (id : string) (r : ContextRef) : M World unit :=
  modify_conn (fun c => set_index (JsMap.set id r (conn_index c)) c).

Definition does_not_exist (id : string) : Error :=
  ("Context " ++ id ++ " does not exist")%string.

Definition lookup (id : string) (w : World) : option (ContextRef * BrowsingContext) :=
  match JsMap.get id (conn_index (conn w)) with
  | None => None
  | Some r =>
      match read_object r (heap w) with
      | None => None
      | Some o => Some (r, o)
      end
  end.

Definition getBrowsingContext (id : string) : M World ContextRef :=
  x <- gets (lookup id) ;;
  match x with
  | Some (r, _) => ret r
  | None => throw (does_not_exist id)
  end.

(** The walk from [id] to its root ancestor.  A chain of distinct ids
    is no longer than the index, which bounds the walk; a chain that
    runs in a circle never ends in the program and resolves to nothing
    here. *)
Fixpoint top_level_from (fuel : nat) (id : string) (w : World)
    : Result ContextRef :=
  match fuel with
  | 0 => Err (does_not_exist id)
  | S f =>
      match lookup id w with
      | None => Err (does_not_exist id)
      | Some (r, o) =>
          match bc_parent o with
          | Some p => if truthy (Some p) then top_level_from f p w else Ok r
          | None => Ok r
          end
      end
  end.

Definition top_level (id : string) (w : World) : Result ContextRef :=
  top_level_from (S (length (conn_index (conn w)))) id w.

Definition getTopLevelContext (id : string) : M World ContextRef :=
  r <- gets (top_level id) ;;
  of_result r.

End Conn.

(** ** String helpers *)

Definition lower_ascii (c : ascii) : ascii :=
  let n := nat_of_ascii c in
  if ((65 <=? n) && (n <=? 90))%nat then ascii_of_nat (n + 32) else c.

(** What [String.prototype.toLocaleLowerCase] does on a host; it depends
    on the default locale of the host. *)
Definition Lowering : Type := string -> string.

(** [String.prototype.toLocaleLowerCase] in the locales that map the
    letters A to Z to a to z (a Turkic locale maps I to a dotless i
    instead). *)
Fixpoint toLocaleLowerCase (s : string) : string :=
  match s with
  | EmptyString => EmptyString
  | String c r => String (lower_ascii c) (toLocaleLowerCase r)
  end.

(** [String.prototype.includes] *)
Fixpoint includes (s pat : string) : bool :=
  String.prefix pat s ||
  match s with
  | EmptyString => false
  | String _ r => includes r pat
  end.

(** [Array.prototype.at(-1)] *)
Definition at_last {A} (l : list A) : option A :=
  nth_error l (length l - 1).

(** ** Browser *)

Module Browser.

Definition subscribeModules : list string :=
  [ "browsingContext"; "network"; "log" ].

Definition subscribeCdpEvents : list string :=
  [ "cdp.Debugger.scriptParsed";
    "cdp.CSS.styleSheetAdded";
    "cdp.Runtime.executionContextsCleared";
    "cdp.Tracing.tracingComplete";
    "cdp.Network.requestWillBeSent";
    "cdp.Debugger.scriptParsed" ].

(** The field initialiser [#connectionEventHandlers]: four function
    objects made with [bind(this)]. *)
Definition connectionEventHandlers : list (EventName * Handler) :=
  [ ("browsingContext.contextCreated", BrowserHandler 0 MOnContextCreated);
    ("browsingContext.contextDestroyed", BrowserHandler 1 MOnContextDestroyed);
    ("browsingContext.fragmentNavigated", BrowserHandler 2 MOnContextNavigation);
    ("browsingContext.navigationStarted", BrowserHandler 3 MOnContextNavigation) ].

(** [new BrowserContext(browser, {defaultViewport, isDefault})]: a new
    object. *)
Definition new_BrowserContext (vp : option Viewport) (isDefault : bool)
    : M World BrowserContext :=
  oid <- gets (fun w => h_next_oid (heap w)) ;;
  modify_heap (fun h => snd (fresh_oid h)) ;;;
  ret (mkBrowserContext oid vp isDefault).

(** [new BrowsingContext(connection, info)]: a new object.  The class is
    not part of this file; what its constructor does on the connection
    is not traced. *)
Definition new_BrowsingContext (info : Info)
    : M World (ContextRef * BrowsingContext) :=
  let o := mkBrowsingContext (context info) (parent info) (url info) in
  r <- gets (fun w => fst (alloc_object o (heap w))) ;;
  modify_heap (fun h => snd (alloc_object o h)) ;;;
  ret (r, o).

Definition new_array (a : JsArray) : M World ArrayRef :=
  r <- gets (fun w => fst (alloc_array a (heap w))) ;;
  modify_heap (fun h => snd (alloc_array a h)) ;;;
  ret r.

(** [constructor(opts)] *)
Definition constructor (opts : Options) (browserName browserVersion : string)
    : M World Browser :=
  contexts <- new_array (ArrContexts []) ;;
  match opt_process opts with
  | Some p => effect (EProcessOnceClose p)
  | None => ret tt
  end ;;;
  defaultContext <- new_BrowserContext (opt_defaultViewport opts) true ;;
  modify_heap (mutate_contexts contexts (fun l => l ++ [defaultContext])) ;;;
  for_each connectionEventHandlers
    (fun nh => Conn.on (fst nh) (snd nh)) ;;;
  ret (mkBrowser browserName browserVersion (opt_process opts)
         (opt_closeCallback opts) (opt_defaultViewport opts) defaultContext
         JsMap.empty contexts connectionEventHandlers).

(** [browserContexts()] returns [this.#contexts]. *)
Definition browserContexts : M St ArrayRef :=
  gets (fun s => p_contexts (browser s)).

Definition read_contexts (r : ArrayRef) : M St (list BrowserContext) :=
  gets (fun s => contexts_at r (heap (world s))).

Definition emit_target (ev : BrowserEvent) (target : Target) : M St unit :=
  effect (EBrowserEmit ev target) ;;;
  effect (EBrowserContextEmit (t_browserContext target) ev target).

(** [#onContextNavigation(event)] *)
Definition onContextNavigation (event : NavigationInfo) : M St unit :=
  ctx <- liftW (Conn.getBrowsingContext (nav_context event)) ;;
  liftW (modify_heap (update_object ctx
    (fun o => mkBrowsingContext (bc_id o) (bc_parent o) (nav_url event)))) ;;;
  target <- gets (fun s => JsMap.get (nav_context event) (p_targets (browser s))) ;;
  match target with
  | Some t => emit_target TargetChanged t
  | None => ret tt
  end.

(** [#onContextCreated(event)] *)
Definition onContextCreated (event : Info) : M St unit :=
  c <- liftW (new_BrowsingContext event) ;;
  liftW (Conn.registerBrowsingContexts (context event) (fst c)) ;;;
  arr <- browserContexts ;;
  l <- read_contexts arr ;;
  match at_last l with
  | None => throw "Missing browser contexts"
  | Some browserContext =>
      let target :=
        if negb (truthy (bc_parent (snd c)))
        then mkTarget PageTarget browserContext (fst c)
        else mkTarget NestedTarget browserContext (fst c) in
      modify_browser
        (fun b => set_targets (JsMap.set (context event) target (p_targets b)) b) ;;;
      emit_target TargetCreated target ;;;
      match bc_parent (snd c) with
      | Some p =>
          if truthy (Some p) then
            topLevel <- liftW (Conn.getTopLevelContext p) ;;
            effect (EBrowsingContextEmit topLevel Created (fst c))
          else ret tt
      | None => ret tt
      end
  end.

(** [#getTree()] *)
Definition getTree : M St unit :=
  contexts <- liftW Conn.send_getTree ;;
  for_each contexts onContextCreated.

(** [#onContextDestroyed(event)] *)
Definition onContextDestroyed (event : Info) : M St unit :=
  ctx <- liftW (Conn.getBrowsingContext (context event)) ;;
  topLevelContext <- liftW (Conn.getTopLevelContext (context event)) ;;
  effect (EBrowsingContextEmit topLevelContext Destroyed ctx) ;;;
  target <- gets (fun s => JsMap.get (context event) (p_targets (browser s))) ;;
  match target with
  | Some t => effect (EPageClose t)
  | None => ret tt
  end ;;;
  modify_browser
    (fun b => set_targets (JsMap.delete (context event) (p_targets b)) b) ;;;
  match target with
  | Some t => emit_target TargetDestroyed t
  | None => ret tt
  end.

(** [static async create(opts)], on a host whose [toLocaleLowerCase] is
    [lower]. *)
Definition create_in (lower : Lowering) (opts : Options) : M World Browser :=
  negotiated <-
    try_catch
      (caps <- Conn.send_session_new (opt_ignoreHTTPSErrors opts) ;;
       ret (match cap_browserName caps with Some n => n | None => "" end,
            match cap_browserVersion caps with Some v => v | None => "" end))
      (fun err => effect (EDebugError err) ;;; ret ("", "")) ;;
  let browserName := fst negotiated in
  let browserVersion := snd negotiated in
  Conn.send_session_subscribe
    (if includes (lower browserName) "firefox"
     then subscribeModules
     else subscribeModules ++ subscribeCdpEvents) ;;;
  browser <- constructor opts browserName browserVersion ;;
  x <- with_browser browser getTree ;;
  ret (snd x).

(** [create] on a host whose locale maps A-Z to a-z. *)
Definition create (opts : Options) : M World Browser :=
  create_in toLocaleLowerCase opts.

(** [get connection()] is the connection of the world. *)

(** [wsEndpoint()] *)
Definition wsEndpoint : M St string :=
  gets (fun s => conn_url (conn (world s))).

(** [close()] *)
Definition close : M St unit :=
  hs <- gets (fun s => p_connectionEventHandlers (browser s)) ;;
  for_each hs (fun nh => liftW (Conn.off (fst nh) (snd nh))) ;;;
  closed <- liftW Conn.closed ;;
  if closed then ret tt
  else
    liftW Conn.dispose ;;;
    cb <- gets (fun s => p_closeCallback (browser s)) ;;
    match cb with
    | Some r => effect ECloseCallback ;;; of_result r
    | None => ret tt
    end.

(** [isConnected()] *)
Definition isConnected : M St bool :=
  closed <- liftW Conn.closed ;;
  ret (negb closed).

(** [process()] *)
Definition process : M St (option ChildProcess) :=
  gets (fun s => p_process (browser s)).

(** The listener given to [process.once('close', ...)]. *)
Definition onProcessClose : M St unit :=
  liftW Conn.dispose ;;;
  effect EDisconnected.

(** [createIncognitoBrowserContext(_options)] *)
Definition createIncognitoBrowserContext : M St BrowserContext :=
  vp <- gets (fun s => p_defaultViewport (browser s)) ;;
  c <- liftW (new_BrowserContext vp false) ;;
  arr <- gets (fun s => p_contexts (browser s)) ;;
  liftW (modify_heap (mutate_contexts arr (fun l => l ++ [c]))) ;;;
  ret c.

(** [version()] *)
Definition version : M St string :=
  gets (fun s => (p_browserName (browser s) ++ "/" ++ p_browserVersion (browser s))%string).

(** [browserContext.targets()].

    Modelled from the spec: BrowserContext.js is not part of this
    file; the targets a context owns are the registered targets whose
    browser context it is. *)
Definition targets_of (bc : BrowserContext) (b : Browser) : list Target :=
  filter (fun t => same_context (t_browserContext t) bc) (JsMap.values (p_targets b)).

(** [_closeContext(browserContext)] *)
Definition _closeContext (browserContext : BrowserContext) : M St unit :=
  arr <- gets (fun s => p_contexts (browser s)) ;;
  l <- read_contexts arr ;;
  filtered <- liftW (new_array
    (ArrContexts (filter (fun c => negb (same_context c browserContext)) l))) ;;
  modify_browser (set_contexts filtered) ;;;
  ts <- gets (fun s => targets_of browserContext (browser s)) ;;
  for_each ts (fun target => effect (EPageClose target)).

(** [defaultBrowserContext()] *)
Definition defaultBrowserContext : M St BrowserContext :=
  gets (fun s => p_defaultContext (browser s)).

(** [newPage()] *)
Definition newPage : M St unit :=
  dc <- gets (fun s => p_defaultContext (browser s)) ;;
  effect (ENewPage dc).

(** [targets()] returns [Array.from(this.#targets.values())], a new
    array. *)
Definition targets : M St ArrayRef :=
  vs <- gets (fun s => JsMap.values (p_targets (browser s))) ;;
  liftW (new_array (ArrTargets vs)).

(** [_getTargetById(id)] *)
Definition _getTargetById (id : string) : M St Target :=
  target <- gets (fun s => JsMap.get id (p_targets (browser s))) ;;
  match target with
  | None => throw "Target not found"
  | Some t => ret t
  end.

End Browser.

(** ** Protocol events and their delivery *)

Inductive ProtocolEvent : Type :=
| ContextCreated (params : Info)
| ContextDestroyed (params : Info)
| FragmentNavigated (params : NavigationInfo)
| NavigationStarted (params : NavigationInfo).

Definition event_name (e : ProtocolEvent) : EventName :=
  match e with
  | ContextCreated _ => "browsingContext.contextCreated"
  | ContextDestroyed _ => "browsingContext.contextDestroyed"
  | FragmentNavigated _ => "browsingContext.fragmentNavigated"
  | NavigationStarted _ => "browsingContext.navigationStarted"
  end.

(** The handler the Browser has for an event. *)
Definition handle (e : ProtocolEvent) : M St unit :=
  match e with
  | ContextCreated i => Browser.onContextCreated i
  | ContextDestroyed i => Browser.onContextDestroyed i
  | FragmentNavigated n | NavigationStarted n => Browser.onContextNavigation n
  end.

(** The state after the events of [evs] were handled one after the
    other; a handler that fails leaves what it did before failing. *)
Fixpoint run_events (evs : list ProtocolEvent) (s : St) : St :=
  match evs with
  | [] => s
  | e :: r => run_events r (state_of (handle e s))
  end.

(** A bound method called with the payload of an event. *)
Definition invoke (m : BoundMethod) (e : ProtocolEvent) : M St unit :=
  match m, e with
  | MOnContextCreated, ContextCreated i => Browser.onContextCreated i
  | MOnContextDestroyed, ContextDestroyed i => Browser.onContextDestroyed i
  | MOnContextNavigation, FragmentNavigated n => Browser.onContextNavigation n
  | MOnContextNavigation, NavigationStarted n => Browser.onContextNavigation n
  | _, _ => ret tt
  end.

(** [connection.emit(name, params)]: the listeners registered under the
    name of the event are called in the order of their registration;
    the function objects of the Browser run its methods. *)
Fixpoint emit_to (hs : list (EventName * Handler)) (e : ProtocolEvent) (s : St)
    : St * list Effect :=
  match hs with
  | [] => (s, [])
  | (n, h) :: r =>
      if String.eqb n (event_name e) then
        match h with
        | BrowserHandler _ m =>
            match invoke m e s with
            | (_, s1, t1) =>
                match emit_to r e s1 with
                | (s2, t2) => (s2, t1 ++ t2)
                end
            end
        | OtherHandler _ => emit_to r e s
        end
      else emit_to r e s
  end.

Definition deliver (e : ProtocolEvent) (s : St) : St * list Effect :=
  emit_to (conn_handlers (conn (world s))) e s.

(** ** Derived notions used in the statements *)

(** The Browser Context collection of the Browser. *)
Definition collection (s : St) : list BrowserContext :=
  contexts_at (p_contexts (browser s)) (heap (world s)).

(** The Target registry of the Browser. *)
Definition registry (s : St) : JsMap.t Target := p_targets (browser s).

(** [s] is the state right after [new Browser(...)] ran in the world
    [w]. *)
Definition new_Browser (opts : Options) (name version : string) (w : World)
    : option St :=
  match Browser.constructor opts name version w with
  | (Ok b, w', _) => Some (mkSt b w')
  | (Err _, _, _) => None
  end.

Definition constructed (opts : Options) (name version : string) (w : World)
    (s : St) : Prop :=
  new_Browser opts name version w = Some s.

(** An id is live after [evs] when its last created or destroyed event
    is a created one; [init] tells whether it was live before. *)
Fixpoint live_from (init : bool) (evs : list ProtocolEvent) (id : string) : bool :=
  match evs with
  | [] => init
  | ContextCreated i :: r =>
      live_from (if String.eqb (context i) id then true else init) r id
  | ContextDestroyed i :: r =>
      live_from (if String.eqb (context i) id then false else init) r id
  | _ :: r => live_from init r id
  end.

Definition live (evs : list ProtocolEvent) (id : string) : bool :=
  live_from false evs id.

(** ** Everything that can happen to a Browser after its construction *)

Inductive Op : Type :=
| OpDeliver (e : ProtocolEvent)            (* the connection emits an event *)
| OpClose
| OpProcessClose
| OpCreateIncognitoBrowserContext
| OpCloseContext (bc : BrowserContext)
| OpBrowserContexts
| OpTargets
| OpNewPage
| OpMutateContexts (r : ArrayRef) (f : list BrowserContext -> list BrowserContext)
| OpMutateTargets (r : ArrayRef) (f : list Target -> list Target)
| OpOtherOn (n : EventName) (k : nat)      (* somebody else's listener *)
| OpOtherOff (n : EventName) (k : nat).

Definition set_heap (h : Heap) (s : St) : St :=
  mkSt (browser s) (mkWorld (conn (world s)) h).

Definition step (o : Op) (s : St) : St :=
  match o with
  | OpDeliver e => fst (deliver e s)
  | OpClose => state_of (Browser.close s)
  | OpProcessClose => state_of (Browser.onProcessClose s)
  | OpCreateIncognitoBrowserContext =>
      state_of (Browser.createIncognitoBrowserContext s)
  | OpCloseContext bc => state_of (Browser._closeContext bc s)
  | OpBrowserContexts => state_of (Browser.browserContexts s)
  | OpTargets => state_of (Browser.targets s)
  | OpNewPage => state_of (Browser.newPage s)
  | OpMutateContexts r f => set_heap (mutate_contexts r f (heap (world s))) s
  | OpMutateTargets r f => set_heap (mutate_targets r f (heap (world s))) s
  | OpOtherOn n k => state_of (liftW (Conn.on n (OtherHandler k)) s)
  | OpOtherOff n k => state_of (liftW (Conn.off n (OtherHandler k)) s)
  end.

Fixpoint run_ops (ops : list Op) (s : St) : St :=
  match ops with
  | [] => s
  | o :: r => run_ops r (step o s)
  end.

(** How often a registration occurs in a list of registrations. *)
Definition registrations (x : EventName * Handler) (l : list (EventName * Handler))
    : nat :=
  length (filter (registration_eqb x) l).

(** None of the Browser's function objects is registered on the
    connection. *)
Definition no_browser_handler (c : Connection) : Prop :=
  forall n h, In (n, h) (conn_handlers c) -> is_browser_handler h = false.

(** ** The subscription rule in the words of the specification *)





(** The [events] of the session.subscribe commands among the effects. *)
Fixpoint subscriptions (t : list Effect) : list (list string) :=
  match t with
  | [] => []
  | ESend (SessionSubscribe evs) :: r => evs :: subscriptions r
  | _ :: r => subscriptions r
  end.

Fixpoint count_effect (p : Effect -> bool) (t : list Effect) : nat :=
  match t with
  | [] => 0
  | e :: r => (if p e then 1 else 0) + count_effect p r
  end.

Definition is_dispose (e : Effect) : bool :=
  match e with EDispose => true | _ => false end.

Definition is_close_callback (e : Effect) : bool :=
  match e with ECloseCallback => true | _ => false end.

Definition is_target_destroyed (e : Effect) : bool :=
  match e with
  | EBrowserEmit TargetDestroyed _ => true
  | EBrowserContextEmit _ TargetDestroyed _ => true
  | _ => false
  end.

(** What the event handlers never touch: the fields of the Browser other
    than the registry, the arrays of the heap, and the connection's
    listeners and status. *)
Definition same_frame (s s' : St) : Prop :=
  set_targets (registry s) (browser s') = browser s /\
  h_arrays (heap (world s')) = h_arrays (heap (world s)) /\
  h_next_oid (heap (world s')) = h_next_oid (heap (world s)) /\
  conn_handlers (conn (world s')) = conn_handlers (conn (world s)) /\
  conn_closed (conn (world s')) = conn_closed (conn (world s)).

(** ** A small world to run examples in *)

(** A connection that is open, has no listener and knows no context; the
    remote end rejects session.new (as Chrome does) and answers the
    other commands, with an empty tree. *)
Definition fresh_connection : Connection :=
  mkConnection "ws://127.0.0.1:9222/session" false [] JsMap.empty
    (Err "unknown command") (fun _ => Ok tt) (Ok []).

Definition fresh_world : World := mkWorld fresh_connection (mkHeap [] [] 0).

Definition plain_options : Options := mkOptions None (Some (Ok tt)) None None.

(** The engine name that session.new negotiated: the [browserName] of
    the reply, or the empty string when the reply has none or the
    command failed. *)
Definition negotiated_name (w : World) : string :=
  match reply_session_new (conn w) with
  | Ok caps => match cap_browserName caps with Some n => n | None => "" end
  | Err _ => ""
  end.

Definition negotiated_version (w : World) : string :=
  match reply_session_new (conn w) with
  | Ok caps => match cap_browserVersion caps with Some v => v | None => "" end
  | Err _ => ""
  end.

(** ** Helpers to describe [close] *)

Definition remove_registrations (hs l : list (EventName * Handler))
    : list (EventName * Handler) :=
  fold_left (fun acc x => remove_first x acc) hs l.

Definition set_conn (c : Connection) (s : St) : St :=
  mkSt (browser s) (mkWorld c (heap (world s))).

(** The state after the Browser took its listeners off the connection. *)
Definition unregistered (s : St) : St :=
  set_conn
    (set_handlers
       (remove_registrations (p_connectionEventHandlers (browser s))
          (conn_handlers (conn (world s))))
       (conn (world s))) s.

Definition off_effects (hs : list (EventName * Handler)) : list Effect :=
  map (fun nh => EOff (fst nh) (snd nh)) hs.

(** ** Invariants of the states a Browser goes through *)

(** The field [#contexts] refers to an array of browser contexts. *)
Definition contexts_allocated (s : St) : Prop :=
  exists l,
    read_array (p_contexts (browser s)) (heap (world s)) = Some (ArrContexts l).

(** The handler table is the one of the field initialiser, and no
    function object of the Browser is registered more often than the
    constructor registered it. *)
Definition handlers_tracked (s : St) : Prop :=
  p_connectionEventHandlers (browser s) = Browser.connectionEventHandlers /\
  forall x, is_browser_handler (snd x) = true ->
    registrations x (conn_handlers (conn (world s))) <=
    registrations x Browser.connectionEventHandlers.

(** ** Helpers to describe [create] *)

(** The events of the session.subscribe command. *)
Definition chosen_events (w : World) : list string :=
  if includes (toLocaleLowerCase (negotiated_name w)) "firefox"
  then Browser.subscribeModules
  else Browser.subscribeModules ++ Browser.subscribeCdpEvents.

(** The effects of [create] up to and including session.subscribe. *)
Definition negotiation_effects (opts : Options) (w : World) : list Effect :=
  ESend (SessionNew (opt_ignoreHTTPSErrors opts)) ::
  match reply_session_new (conn w) with
  | Err e => [EDebugError e]
  | Ok _ => []
  end ++ [ESend (SessionSubscribe (chosen_events w))].


(** ** The walk to the top-level context, as a relation

    [walks_to w id k top]: starting at [id] and following parent ids
    through the index of [w], the walk visits [k] contexts and ends at
    the context [top], which has no parent. *)
Inductive walks_to (w : World) : string -> nat -> ContextRef -> Prop :=
| walks_to_root id r o :
    Conn.lookup id w = Some (r, o) ->
    truthy (bc_parent o) = false ->
    walks_to w id 1 r
| walks_to_parent id r o p k top :
    Conn.lookup id w = Some (r, o) ->
    bc_parent o = Some p ->
    truthy (Some p) = true ->
    walks_to w p k top ->
    walks_to w id (S k) top.


(** ** Further notions used in the statements *)

(** The commands sent to the remote end, in the order of sending. *)
Fixpoint commands (t : list Effect) : list Command :=
  match t with
  | [] => []
  | ESend c :: r => c :: commands r
  | _ :: r => commands r
  end.

(** The ids of the context-created events of a sequence. *)
Fixpoint created_ids (evs : list ProtocolEvent) : list string :=
  match evs with
  | [] => []
  | ContextCreated i :: r => context i :: created_ids r
  | _ :: r => created_ids r
  end.

(** The target that [#onContextCreated] builds for an event, in the
    browser context [bc], for the context object at [r]. *)
Definition target_for (i : Info) (bc : BrowserContext) (r : ContextRef) : Target :=
  mkTarget (if truthy (parent i) then NestedTarget else PageTarget) bc r.

(** The fields of the Browser that are set once, by the constructor. *)
Definition identity (b : Browser)
    : string * string * option ChildProcess * option (Result unit) *
      option Viewport * BrowserContext :=
  (p_browserName b, p_browserVersion b, p_process b, p_closeCallback b,
   p_defaultViewport b, p_defaultContext b).



(** ** [#onContextDestroyed] between its awaits

    The method is [async]: it runs up to [await target?.page()], goes
    on with [page?.close()] when that promise is settled, and reaches
    [this.#targets.delete] when the close is settled.  Other events can
    be handled while it is suspended. *)
Module OnContextDestroyed.

(** From the call to the first [await]: the two lookups, the
    "destroyed" notification, [this.#targets.get] and the call of
    [target?.page()]. *)
Definition start (event : Info) : M St (option Target) :=
  ctx <- liftW (Conn.getBrowsingContext (context event)) ;;
  topLevelContext <- liftW (Conn.getTopLevelContext (context event)) ;;
  effect (EBrowsingContextEmit topLevelContext Destroyed ctx) ;;;
  gets (fun s => JsMap.get (context event) (p_targets (browser s))).

(** From the first [await] to the second: [page?.close().catch(debugError)]. *)
Definition after_page (target : option Target) : M St unit :=
  match target with
  | Some t => effect (EPageClose t)
  | None => ret tt
  end.

(** From the second [await] to the end: [this.#targets.delete] and the
    "target destroyed" events. *)
Definition after_close (event : Info) (target : option Target) : M St unit :=
  modify_browser
    (fun b => set_targets (JsMap.delete (context event) (p_targets b)) b) ;;;
  match target with
  | Some t => Browser.emit_target TargetDestroyed t
  | None => ret tt
  end.

End OnContextDestroyed.

(** A call of [#onContextDestroyed] that is suspended at an [await]. *)
Inductive Phase : Type :=
| AwaitingPage      (* at [await target?.page()] *)
| AwaitingClose.    (* at [await page?.close().catch(debugError)] *)

Record Suspended : Type := mkSuspended {
  sus_event : Info;
  sus_target : option Target;
  sus_phase : Phase
}.

(** The Browser together with its suspended handlers. *)
Record Sys : Type := mkSys {
  sys_state : St;
  sys_suspended : list Suspended
}.

(** What the event loop does next: an event arrives and its handler
    runs up to its first [await] (to its end, for the handlers that
    have none), or one of the suspended handlers goes on to its next
    [await] or to its end. *)
Inductive Action : Type :=
| Arrive (e : ProtocolEvent)
| Resume (k : nat).

Definition remove_nth {A} (k : nat) (l : list A) : list A :=
  firstn k l ++ skipn (S k) l.

Definition arrive (e : ProtocolEvent) (x : Sys) : Sys :=
  match e with
  | ContextDestroyed i =>
      match OnContextDestroyed.start i (sys_state x) with
      | (Ok t, s, _) =>
          mkSys s (sys_suspended x ++ [mkSuspended i t AwaitingPage])
      | (Err _, s, _) => mkSys s (sys_suspended x)
      end
  | _ => mkSys (state_of (handle e (sys_state x))) (sys_suspended x)
  end.

Definition resume (k : nat) (x : Sys) : Sys :=
  match nth_error (sys_suspended x) k with
  | None => x
  | Some su =>
      match sus_phase su with
      | AwaitingPage =>
          mkSys
            (state_of (OnContextDestroyed.after_page (sus_target su) (sys_state x)))
            (list_update (sys_suspended x) k
               (fun u => mkSuspended (sus_event u) (sus_target u) AwaitingClose))
      | AwaitingClose =>
          mkSys
            (state_of (OnContextDestroyed.after_close (sus_event su)
                         (sus_target su) (sys_state x)))
            (remove_nth k (sys_suspended x))
      end
  end.

Definition act (a : Action) (x : Sys) : Sys :=
  match a with
  | Arrive e => arrive e x
  | Resume k => resume k x
  end.

Fixpoint run_schedule (sched : list Action) (x : Sys) : Sys :=
  match sched with
  | [] => x
  | a :: r => run_schedule r (act a x)
  end.

(** The events of a schedule, in the order of their arrival. *)
Fixpoint arrivals (sched : list Action) : list ProtocolEvent :=
  match sched with
  | [] => []
  | Arrive e :: r => e :: arrivals r
  | Resume _ :: r => arrivals r
  end.

(** Every event is handled to its end before the next one arrives. *)
Fixpoint one_by_one (evs : list ProtocolEvent) : list Action :=
  match evs with
  | [] => []
  | e :: r => Arrive e :: Resume 0 :: Resume 0 :: one_by_one r
  end.

(** A context-destroyed handler for [id] is suspended. *)
Definition suspended_for (id : string) (x : Sys) : bool :=
  existsb (fun su => String.eqb (context (sus_event su)) id) (sys_suspended x).

(** No context-created event arrives for an id while a
    context-destroyed handler for that id is suspended. *)
Fixpoint no_overlap (sched : list Action) (x : Sys) : bool :=
  match sched with
  | [] => true
  | a :: r =>
      match a with
      | Arrive (ContextCreated i) => negb (suspended_for (context i) x)
      | _ => true
      end && no_overlap r (act a x)
  end.

(** Every context-destroyed event that meets a registered Target gets
    past the lookups of the connection. *)
Fixpoint lookups_succeed (sched : list Action) (x : Sys) : bool :=
  match sched with
  | [] => true
  | a :: r =>
      match a with
      | Arrive (ContextDestroyed i) =>
          is_ok (result_of (OnContextDestroyed.start i (sys_state x))) ||
          match JsMap.get (context i) (registry (sys_state x)) with
          | Some _ => false
          | None => true
          end
      | _ => true
      end && lookups_succeed r (act a x)
  end.

Definition mem (id : string) (l : list string) : bool :=
  existsb (String.eqb id) l.

(** The events follow the protocol, [known] being the ids created so
    far: no id is created twice, and the parent of a nested context was
    created before it. *)
Fixpoint conformant (known : list string) (evs : list ProtocolEvent) : bool :=
  match evs with
  | [] => true
  | ContextCreated i :: r =>
      negb (mem (context i) known) &&
      match parent i with
      | Some p => if truthy (Some p) then mem p known else true
      | None => true
      end &&
      conformant (context i :: known) r
  | _ :: r => conformant known r
  end.

(** The ids created so far are the ids of the index, each of them
    walks to a top-level context, and neither the registry nor a
    suspended handler holds another id. *)
Definition resolved (known : list string) (x : Sys) : Prop :=
  (forall id, mem id known = false ->
     JsMap.get id (conn_index (conn (world (sys_state x)))) = None) /\
  (forall id, mem id known = true ->
     exists k top, walks_to (world (sys_state x)) id k top) /\
  (forall id, mem id known = false ->
     JsMap.get id (registry (sys_state x)) = None) /\
  (forall id, mem id known = false -> suspended_for id x = false).

(** The ids created so far, after one more action. *)
Definition known_after (known : list string) (a : Action) : list string :=
  match a with
  | Arrive (ContextCreated i) => context i :: known
  | _ => known
  end.

(** ** Closing a browser context *)

(** Modelled from the spec: [browserContext.close()], of
    BrowserContext.js, which is not part of this file.  The default
    context is never removable and callers must never be able to close
    it; a context other than the default one is removed by a
    client-initiated close, which goes through the internal
    context-close helper of the Browser.  The specification does not
    give the text of the error. *)
Definition BrowserContext_close (bc : BrowserContext) : M St unit :=
  if ctx_isDefault bc then throw "Default context cannot be closed!"
  else Browser._closeContext bc.

(** An operation that leaves the default context [d] alone: it is not a
    change of the collection's array from outside, and when it is the
    internal context-close helper it is called for another context, as
    [browserContext.close()] calls it. *)
Definition spares (d : BrowserContext) (o : Op) : Prop :=
  match o with
  | OpMutateContexts _ _ => False
  | OpCloseContext bc => same_context d bc = false
  | _ => True
  end.

(** ** [create] on any host *)


(** How often [c] occurs in a list of commands. *)
Definition sent (c : Command -> bool) (cs : list Command) : nat :=
  length (filter c cs).

Definition is_getTree (c : Command) : bool :=
  match c with BrowsingContextGetTree => true | _ => false end.

(** * Lemmas *)

(** ** JavaScript maps *)

Section JsMapFacts.

Context {V : Type}.
Implicit Types (m : JsMap.t V) (k : string) (v : V).

Lemma get_set_same k v m : JsMap.get k (JsMap.set k v m) = Some v.
Proof.
  induction m as [|[k' v'] r IH]; simpl.
  - now rewrite String.eqb_refl.
  - destruct (String.eqb k' k) eqn:E; simpl.
    + now rewrite String.eqb_refl.
    + now rewrite E.
Qed.

Lemma entries_set_other k k' v m :
  k' <> k -> JsMap.entries k (JsMap.set k' v m) = JsMap.entries k m.
Proof.
  intros N. unfold JsMap.entries.
  induction m as [|[k0 v0] r IH]; simpl.
  - apply String.eqb_neq in N. now rewrite N.
  - destruct (String.eqb k0 k') eqn:E; simpl.
    + apply String.eqb_eq in E. subst k0.
      apply String.eqb_neq in N. now rewrite N.
    + destruct (String.eqb k0 k); simpl; now rewrite IH.
Qed.

Lemma entries_set_same k v m :
  JsMap.entries k m <= 1 -> JsMap.entries k (JsMap.set k v m) = 1.
Proof.
  unfold JsMap.entries.
  induction m as [|[k0 v0] r IH]; simpl; intros H.
  - now rewrite String.eqb_refl.
  - destruct (String.eqb k0 k) eqn:E; simpl.
    + rewrite String.eqb_refl. simpl in *. lia.
    + rewrite E. auto.
Qed.

Lemma entries_delete_same k m : JsMap.entries k (JsMap.delete k m) = 0.
Proof.
  unfold JsMap.entries, JsMap.delete.
  induction m as [|[k0 v0] r IH]; simpl; auto.
  destruct (String.eqb k0 k) eqn:E; simpl; auto.
  now rewrite E.
Qed.

Lemma entries_delete_other k k' m :
  k' <> k -> JsMap.entries k (JsMap.delete k' m) = JsMap.entries k m.
Proof.
  intros N. unfold JsMap.entries, JsMap.delete.
  induction m as [|[k0 v0] r IH]; simpl; auto.
  destruct (String.eqb k0 k') eqn:E; simpl.
  - apply String.eqb_eq in E. subst k0.
    destruct (String.eqb k' k) eqn:E'; auto.
    apply String.eqb_eq in E'. contradiction.
  - destruct (String.eqb k0 k); simpl; now rewrite IH.
Qed.

Lemma get_none_entries k m : JsMap.get k m = None -> JsMap.entries k m = 0.
Proof.
  unfold JsMap.entries.
  induction m as [|[k0 v0] r IH]; simpl; auto.
  destruct (String.eqb k0 k); [discriminate | auto].
Qed.

Lemma delete_absent k m : JsMap.get k m = None -> JsMap.delete k m = m.
Proof.
  unfold JsMap.delete.
  induction m as [|[k0 v0] r IH]; simpl; auto.
  destruct (String.eqb k0 k); [discriminate |].
  intros H. simpl. now rewrite IH.
Qed.

End JsMapFacts.

(** ** Arrays on the heap *)

Lemma list_update_length {A} (l : list A) i f :
  length (list_update l i f) = length l.
Proof.
  revert i. induction l as [|x r IH]; intros [|i]; simpl; auto.
Qed.

Lemma nth_error_list_update_same {A} (l : list A) i f :
  nth_error (list_update l i f) i = option_map f (nth_error l i).
Proof.
  revert i. induction l as [|x r IH]; intros [|i]; simpl; auto.
Qed.

Lemma nth_error_list_update_other {A} (l : list A) i j f :
  i <> j -> nth_error (list_update l i f) j = nth_error l j.
Proof.
  revert i j. induction l as [|x r IH]; intros [|i] [|j] N; simpl; auto;
    congruence.
Qed.


Lemma nth_error_snoc {A} (l : list A) x : nth_error (l ++ [x]) (length l) = Some x.
Proof.
  rewrite nth_error_app2 by lia. now rewrite Nat.sub_diag.
Qed.


(** ** Running the monad *)

Ltac unfold_m :=
  cbv beta delta [bind ret throw try_catch effect gets modify of_result liftW
    modify_browser modify_conn modify_heap with_browser
    result_of state_of effects_of
    Conn.send_session_new Conn.send_session_subscribe Conn.send_getTree
    Conn.on Conn.off Conn.dispose Conn.closed Conn.registerBrowsingContexts
    Conn.getBrowsingContext Conn.getTopLevelContext
    Browser.new_BrowserContext Browser.new_BrowsingContext Browser.new_array
    Browser.browserContexts Browser.read_contexts Browser.emit_target] in *.

Ltac break_match :=
  match goal with
  | |- context [match ?x with _ => _ end] =>
      lazymatch x with
      | context [match _ with _ => _ end] => fail
      | _ => destruct x eqn:?
      end
  end.

Ltac break_all := repeat (break_match; simpl).

Lemma same_frame_refl s : same_frame s s.
Proof. unfold same_frame, registry. destruct s as [[] ?]; simpl; auto. Qed.

Lemma same_frame_trans s1 s2 s3 :
  same_frame s1 s2 -> same_frame s2 s3 -> same_frame s1 s3.
Proof.
  unfold same_frame, registry.
  destruct s1 as [[] ?], s2 as [[] ?], s3 as [[] ?]; simpl.
  unfold set_targets; simpl.
  intros (A1 & A2 & A3 & A4 & A5) (B1 & B2 & B3 & B4 & B5).
  repeat split; try congruence.
Qed.

Lemma same_frame_collection s s' : same_frame s s' -> collection s' = collection s.
Proof.
  unfold same_frame, collection, contexts_at, read_array.
  intros (A & B & _). rewrite B. rewrite <- A. reflexivity.
Qed.

(** ** The event handlers, step by step *)

Lemma onContextCreated_state i s bc :
  at_last (collection s) = Some bc ->
  registry (state_of (Browser.onContextCreated i s)) =
    JsMap.set (context i)
      (mkTarget (if truthy (parent i) then NestedTarget else PageTarget) bc
         (length (h_objects (heap (world s)))))
      (registry s).
Proof.
  intros H. unfold Browser.onContextCreated. unfold_m. simpl.
  unfold collection in *. simpl in H.
  change (contexts_at (p_contexts (browser s))
            (mkHeap (h_objects (heap (world s)) ++
                      [mkBrowsingContext (context i) (parent i) (url i)])
               (h_arrays (heap (world s))) (h_next_oid (heap (world s)))))
    with (contexts_at (p_contexts (browser s)) (heap (world s))).
  rewrite H.
  break_all; auto.
Qed.

Lemma onContextCreated_missing i s :
  at_last (collection s) = None ->
  result_of (Browser.onContextCreated i s) = Err "Missing browser contexts" /\
  registry (state_of (Browser.onContextCreated i s)) = registry s /\
  effects_of (Browser.onContextCreated i s) = [].
Proof.
  intros H. unfold Browser.onContextCreated. unfold_m. simpl.
  unfold collection in *. simpl in H.
  change (contexts_at (p_contexts (browser s))
            (mkHeap (h_objects (heap (world s)) ++
                      [mkBrowsingContext (context i) (parent i) (url i)])
               (h_arrays (heap (world s))) (h_next_oid (heap (world s)))))
    with (contexts_at (p_contexts (browser s)) (heap (world s))).
  rewrite H. simpl. auto.
Qed.

Lemma onContextCreated_frame i s :
  same_frame s (state_of (Browser.onContextCreated i s)).
Proof.
  unfold Browser.onContextCreated. unfold_m. simpl.
  unfold same_frame, registry, set_targets.
  destruct s as [[] [c h]]; simpl.
  break_all; auto.
Qed.

Lemma onContextDestroyed_frame i s :
  same_frame s (state_of (Browser.onContextDestroyed i s)).
Proof.
  unfold Browser.onContextDestroyed. unfold_m. simpl.
  unfold same_frame, registry, set_targets.
  destruct s as [[] [c h]]; simpl.
  break_all; auto.
Qed.

Lemma onContextNavigation_frame n s :
  same_frame s (state_of (Browser.onContextNavigation n s)).
Proof.
  unfold Browser.onContextNavigation. unfold_m. simpl.
  unfold same_frame, registry, set_targets.
  destruct s as [[] [c h]]; simpl.
  break_all; auto.
Qed.

Lemma onContextNavigation_registry n s :
  registry (state_of (Browser.onContextNavigation n s)) = registry s.
Proof.
  unfold Browser.onContextNavigation. unfold_m. simpl.
  unfold registry.
  break_all; auto.
Qed.

(** A context-destroyed event either fails in the connection's lookups
    and changes nothing, or deletes the id from the registry. *)
Lemma onContextDestroyed_state i s :
  (is_ok (result_of (Browser.onContextDestroyed i s)) = false /\
   state_of (Browser.onContextDestroyed i s) = s /\
   effects_of (Browser.onContextDestroyed i s) = []) \/
  (result_of (Browser.onContextDestroyed i s) = Ok tt /\
   registry (state_of (Browser.onContextDestroyed i s)) =
     JsMap.delete (context i) (registry s)).
Proof.
  unfold Browser.onContextDestroyed. unfold_m. simpl.
  unfold registry.
  destruct s as [b w]; simpl.
  break_all; auto.
Qed.

(** ** The state after construction *)

Lemma constructed_facts opts name version w s :
  constructed opts name version w s ->
  registry s = [] /\
  collection s = [p_defaultContext (browser s)] /\
  ctx_isDefault (p_defaultContext (browser s)) = true /\
  p_browserName (browser s) = name /\
  p_browserVersion (browser s) = version /\
  p_connectionEventHandlers (browser s) = Browser.connectionEventHandlers /\
  conn_handlers (conn (world s)) =
    conn_handlers (conn w) ++ Browser.connectionEventHandlers /\
  p_contexts (browser s) < length (h_arrays (heap (world s))) /\
  conn_closed (conn (world s)) = conn_closed (conn w) /\
  p_closeCallback (browser s) = opt_closeCallback opts.
Proof.
  unfold constructed, new_Browser, Browser.constructor. unfold_m.
  destruct (opt_process opts); simpl; intros H; injection H as <-; simpl;
    unfold collection, registry, contexts_at, read_array, mutate_contexts,
      update_array; simpl;
    rewrite nth_error_list_update_same, nth_error_snoc; simpl;
    rewrite list_update_length, length_app; simpl;
    rewrite <- !app_assoc; simpl; repeat split; auto; lia.
Qed.

(** ** The registry along a sequence of events *)

Lemma handle_frame e s : same_frame s (state_of (handle e s)).
Proof.
  destruct e; simpl.
  - apply onContextCreated_frame.
  - apply onContextDestroyed_frame.
  - apply onContextNavigation_frame.
  - apply onContextNavigation_frame.
Qed.

Lemma handle_collection e s : collection (state_of (handle e s)) = collection s.
Proof. apply same_frame_collection, handle_frame. Qed.

(** What one event does to the number of entries of an id. *)
Lemma handle_entries e s id :
  at_last (collection s) <> None ->
  JsMap.entries id (registry s) <= 1 ->
  let s' := state_of (handle e s) in
  match e with
  | ContextCreated i =>
      if String.eqb (context i) id
      then JsMap.entries id (registry s') = 1
      else JsMap.entries id (registry s') = JsMap.entries id (registry s)
  | ContextDestroyed i =>
      if String.eqb (context i) id
      then (is_ok (result_of (handle e s)) = true /\
            JsMap.entries id (registry s') = 0) \/
           (is_ok (result_of (handle e s)) = false /\ s' = s)
      else JsMap.entries id (registry s') = JsMap.entries id (registry s)
  | _ => JsMap.entries id (registry s') = JsMap.entries id (registry s)
  end.
Proof.
  intros NE LE. destruct e as [i|i|n|n]; simpl.
  - destruct (at_last (collection s)) as [bc|] eqn:L; [|contradiction].
    rewrite (onContextCreated_state i s bc L).
    destruct (String.eqb (context i) id) eqn:E.
    + apply String.eqb_eq in E. subst id. now apply entries_set_same.
    + apply String.eqb_neq in E. now apply entries_set_other.
  - destruct (onContextDestroyed_state i s) as [(F & S & _)|(O & R)].
    + rewrite S.
      destruct (String.eqb (context i) id); auto.
    + rewrite R, O. simpl.
      destruct (String.eqb (context i) id) eqn:E.
      * apply String.eqb_eq in E. subst id. left. split; auto.
        apply entries_delete_same.
      * apply String.eqb_neq in E. now apply entries_delete_other.
  - now rewrite onContextNavigation_registry.
  - now rewrite onContextNavigation_registry.
Qed.

Lemma handle_entries_le e s id :
  at_last (collection s) <> None ->
  JsMap.entries id (registry s) <= 1 ->
  JsMap.entries id (registry (state_of (handle e s))) <= 1.
Proof.
  intros NE LE. pose proof (handle_entries e s id NE LE) as H. simpl in H.
  destruct e as [i|i|n|n];
    try destruct (String.eqb (context i) id); try lia.
  destruct H as [[_ H]|[_ H]]; [lia | now rewrite H].
Qed.

(** ** The bound on the walk to the top-level context is enough *)

Lemma top_level_from_walks w : forall fuel id top,
  Conn.top_level_from fuel id w = Ok top ->
  exists k, k <= fuel /\ walks_to w id k top.
Proof.
  induction fuel as [|f IH]; intros id top H; simpl in H; [discriminate |].
  destruct (Conn.lookup id w) as [[r o]|] eqn:L; [|discriminate].
  destruct (bc_parent o) as [p|] eqn:P.
  - destruct (truthy (Some p)) eqn:T; pose proof T as T'; simpl in T';
      rewrite T' in H.
    + destruct (IH _ _ H) as (k & Hk & W).
      exists (S k). split; [lia |]. eapply walks_to_parent; eauto.
    + injection H as <-. exists 1. split; [lia |].
      eapply walks_to_root; eauto. now rewrite P.
  - injection H as <-. exists 1. split; [lia |].
    eapply walks_to_root; eauto. now rewrite P.
Qed.

Lemma walks_top_level_from w id k top :
  walks_to w id k top ->
  forall fuel, k <= fuel -> Conn.top_level_from fuel id w = Ok top.
Proof.
  induction 1 as [id r o L T|id r o p k top L P T W IH]; intros fuel F;
    (destruct fuel as [|f]; [lia |]); simpl; rewrite L.
  - destruct (bc_parent o) as [p|]; [|reflexivity].
    simpl in T. now rewrite T.
  - rewrite P. simpl in T. rewrite T. apply IH. lia.
Qed.

Lemma walks_to_deterministic w id k top :
  walks_to w id k top ->
  forall k' top', walks_to w id k' top' -> k' = k /\ top' = top.
Proof.
  induction 1 as [id r o L T|id r o p k top L P T W IH]; intros k' top' W';
    inversion W' as [id' r' o' L' T'|id' r' o' p' k0 top0 L' P' T' W0]; subst;
    rewrite L in L'; injection L' as <- <-.
  - auto.
  - rewrite P' in T. congruence.
  - rewrite P in T'. congruence.
  - rewrite P in P'. injection P' as <-.
    destruct (IH _ _ W0) as [-> ->]. auto.
Qed.

Lemma lookup_key id w x : Conn.lookup id w = Some x ->
  In id (JsMap.keys (conn_index (conn w))).
Proof.
  unfold Conn.lookup, JsMap.keys.
  destruct (JsMap.get id (conn_index (conn w))) as [r|] eqn:G; [|discriminate].
  intros _. clear x. revert G.
  induction (conn_index (conn w)) as [|[k v] m IH]; simpl; [discriminate |].
  destruct (String.eqb k id) eqn:E.
  - apply String.eqb_eq in E. auto.
  - auto.
Qed.

(** The ids a walk visits are indexed and pairwise different. *)
Lemma walks_to_path w id k top :
  walks_to w id k top ->
  exists path,
    length path = k /\
    NoDup path /\
    incl path (JsMap.keys (conn_index (conn w))) /\
    forall x, In x path -> exists j, j <= k /\ walks_to w x j top.
Proof.
  induction 1 as [id r o L T|id r o p k top L P T W IH].
  - exists [id]. repeat split.
    + constructor; [intros [] | constructor].
    + intros x [<-|[]]. eapply lookup_key; eauto.
    + intros x [<-|[]]. exists 1. split; [lia |]. eapply walks_to_root; eauto.
  - destruct IH as (path & Len & ND & Incl & Each).
    exists (id :: path). repeat split.
    + simpl. now rewrite Len.
    + constructor; auto. intros I.
      destruct (Each _ I) as (j & Hj & Wj).
      assert (Wid : walks_to w id (S k) top) by (eapply walks_to_parent; eauto).
      destruct (walks_to_deterministic _ _ _ _ Wid _ _ Wj) as [-> _]. lia.
    + intros x [<-|I]; [eapply lookup_key; eauto | auto].
    + intros x [<-|I].
      * exists (S k). split; [lia |]. eapply walks_to_parent; eauto.
      * destruct (Each _ I) as (j & Hj & Wj). exists j. split; [lia | auto].
Qed.

(** A walk that ends with some amount of fuel ends with the fuel that
    [getTopLevelContext] gives it: the bound cuts no walk short. *)
Lemma top_level_fuel_enough w fuel id top :
  Conn.top_level_from fuel id w = Ok top -> Conn.top_level id w = Ok top.
Proof.
  intros H. destruct (top_level_from_walks _ _ _ _ H) as (k & _ & W).
  destruct (walks_to_path _ _ _ _ W) as (path & Len & ND & Incl & _).
  pose proof (NoDup_incl_length ND Incl) as B.
  unfold JsMap.keys in B. rewrite length_map in B.
  apply (walks_top_level_from _ _ _ _ W). lia.
Qed.

(** * Properties of the Browser *)

(** ** C1: a destroyed context that stays registered *)

(** C1 as stated fails: a nested context whose parent the connection
    does not know is created and then destroyed; the handler of the
    destroyed event fails in the top-level lookup before it reaches the
    registry, and the entry of the destroyed id stays. *)
Lemma destroyed_context_stays_registered :
  exists s,
    constructed plain_options "" "" fresh_world s /\
    let evs := [ ContextCreated (mkInfo "frame" (Some "gone") "about:blank");
                 ContextDestroyed (mkInfo "frame" (Some "gone") "about:blank") ] in
    live evs "frame" = false /\
    JsMap.entries "frame" (registry (run_events evs s)) = 1.
Proof.
  eexists. split; [reflexivity |]. split; reflexivity.
Qed.



(** ** close() *)

Lemma for_each_off hs : forall s,
  for_each hs (fun nh => liftW (Conn.off (fst nh) (snd nh))) s =
  (Ok tt,
   set_conn (set_handlers (remove_registrations hs (conn_handlers (conn (world s))))
               (conn (world s))) s,
   off_effects hs).
Proof.
  induction hs as [|[n h] r IH]; intros s.
  - destruct s as [b [[] hp]]. reflexivity.
  - simpl. unfold bind at 1. unfold liftW at 1. unfold Conn.off at 1.
    unfold_m. simpl. rewrite IH. simpl.
    destruct s as [b [[] hp]]. reflexivity.
Qed.

(** What [close()] does, on its two paths. *)
Lemma close_unfold s :
  Browser.close s =
  if conn_closed (conn (world s)) then
    (Ok tt, unregistered s, off_effects (p_connectionEventHandlers (browser s)))
  else
    (match p_closeCallback (browser s) with Some r => r | None => Ok tt end,
     set_conn (set_closed true (conn (world (unregistered s)))) (unregistered s),
     off_effects (p_connectionEventHandlers (browser s)) ++
     EDispose ::
     match p_closeCallback (browser s) with
     | Some _ => [ECloseCallback]
     | None => []
     end).
Proof.
  unfold Browser.close.
  unfold bind at 1. unfold gets at 1.
  unfold bind at 1. rewrite for_each_off.
  fold (unregistered s).
  unfold_m. simpl.
  destruct s as [b [[u cl hs ix r1 r2 r3] hp]]; simpl.
  destruct cl; simpl.
  - now rewrite app_nil_r.
  - destruct b as [? ? ? cb ? ? ? ? ?]; simpl.
    destruct cb as [[[]|e]|]; simpl; reflexivity.
Qed.

Lemma count_effect_app p t1 t2 :
  count_effect p (t1 ++ t2) = count_effect p t1 + count_effect p t2.
Proof. induction t1 as [|e r IH]; simpl; auto. rewrite IH. lia. Qed.

Lemma count_effect_off_effects p hs :
  (forall n h, p (EOff n h) = false) -> count_effect p (off_effects hs) = 0.
Proof.
  intros H. induction hs as [|[n h] r IH]; simpl; auto. now rewrite H.
Qed.

Lemma close_closes s : conn_closed (conn (world (state_of (Browser.close s)))) = true.
Proof.
  rewrite close_unfold.
  destruct (conn_closed (conn (world s))) eqn:E; simpl; auto.
Qed.

(** ** C3: close() twice *)

(** C3.  A second [close()] after a first one returns without error and
    neither disposes the connection nor calls the close callback, so
    over the two calls the connection is disposed at most once and the
    callback is called at most once; [close()] on a connection that is
    already closed returns without disposing and without calling the
    callback. *)
Theorem close_is_idempotent s :
  let first := Browser.close s in
  let second := Browser.close (state_of first) in
  result_of second = Ok tt /\
  count_effect is_dispose (effects_of second) = 0 /\
  count_effect is_close_callback (effects_of second) = 0 /\
  count_effect is_dispose (effects_of first ++ effects_of second) <= 1 /\
  count_effect is_close_callback (effects_of first ++ effects_of second) <= 1 /\
  (conn_closed (conn (world s)) = true ->
   result_of first = Ok tt /\
   count_effect is_dispose (effects_of first) = 0 /\
   count_effect is_close_callback (effects_of first) = 0).
Proof.
  intros first second.
  assert (Closed : forall s0, conn_closed (conn (world s0)) = true ->
            result_of (Browser.close s0) = Ok tt /\
            count_effect is_dispose (effects_of (Browser.close s0)) = 0 /\
            count_effect is_close_callback (effects_of (Browser.close s0)) = 0).
  { intros s0 C. rewrite close_unfold, C. unfold result_of, effects_of; simpl.
    rewrite !count_effect_off_effects by reflexivity. auto. }
  destruct (Closed (state_of first) (close_closes s)) as (R & D & K).
  fold second in R, D, K.
  repeat split; auto.
  - rewrite count_effect_app, D. subst first.
    rewrite close_unfold.
    destruct (conn_closed (conn (world s))); unfold effects_of; simpl.
    + rewrite count_effect_off_effects by reflexivity. lia.
    + rewrite count_effect_app, count_effect_off_effects by reflexivity.
      destruct (p_closeCallback (browser s)); simpl; lia.
  - rewrite count_effect_app, K. subst first.
    rewrite close_unfold.
    destruct (conn_closed (conn (world s))); unfold effects_of; simpl.
    + rewrite count_effect_off_effects by reflexivity. lia.
    + rewrite count_effect_app, count_effect_off_effects by reflexivity.
      destruct (p_closeCallback (browser s)); simpl; lia.
  - now apply Closed.
  - now apply Closed.
  - now apply Closed.
Qed.

Lemma close_is_idempotent_witness :
  exists s,
    constructed plain_options "" "" fresh_world s /\
    let closed := state_of (Browser.close s) in
    conn_closed (conn (world closed)) = true /\
    result_of (Browser.close closed) = Ok tt /\
    count_effect is_dispose (effects_of (Browser.close closed)) = 0 /\
    count_effect is_close_callback (effects_of (Browser.close closed)) = 0.
Proof.
  eexists. split; [reflexivity |]. split; [reflexivity |].
  match goal with
  | |- context [result_of (Browser.close ?c)] =>
      exact (proj2 (proj2 (proj2 (proj2 (proj2 (close_is_idempotent c))))) eq_refl)
  end.
Defined.

(** ** C8: a context-destroyed event without a Target *)

(** C8 (amended).  For a context-destroyed event whose id has no
    registered Target: if the connection resolves the top-level ancestor
    of the id, the handler succeeds, its only effect is the "destroyed"
    notification on that top-level context, and the state, the registry
    with it, is unchanged; if the connection does not resolve it, the
    handler fails, emits nothing and changes nothing.  No "target
    destroyed" event is emitted in either case. *)
Theorem destroyed_without_target i s :
  JsMap.get (context i) (registry s) = None ->
  let x := Browser.onContextDestroyed i s in
  registry (state_of x) = registry s /\
  count_effect is_target_destroyed (effects_of x) = 0 /\
  match Conn.top_level (context i) (world s) with
  | Ok top =>
      exists ctx,
        JsMap.get (context i) (conn_index (conn (world s))) = Some ctx /\
        x = (Ok tt, s, [EBrowsingContextEmit top Destroyed ctx])
  | Err _ => exists e, x = (Err e, s, [])
  end.
Proof.
  intros G x.
  assert (X : match Conn.top_level (context i) (world s) with
              | Ok top =>
                  exists ctx,
                    JsMap.get (context i) (conn_index (conn (world s))) = Some ctx /\
                    x = (Ok tt, s, [EBrowsingContextEmit top Destroyed ctx])
              | Err _ => exists e, x = (Err e, s, [])
              end).
  { subst x. unfold Browser.onContextDestroyed. unfold_m. simpl.
    unfold registry in G.
    destruct (Conn.top_level (context i) (world s)) as [top|e] eqn:T.
    - pose proof T as T'. unfold Conn.top_level in T'. simpl in T'.
      unfold Conn.lookup in *.
      destruct (JsMap.get (context i) (conn_index (conn (world s)))) as [r|];
        [|discriminate].
      destruct (read_object r (heap (world s))); [|discriminate].
      simpl. rewrite T. simpl. rewrite G. simpl.
      rewrite (delete_absent _ _ G).
      exists r. split; [reflexivity |].
      destruct s as [[] ?]; reflexivity.
    - unfold Conn.lookup.
      destruct (JsMap.get (context i) (conn_index (conn (world s)))) as [r|];
        simpl.
      + destruct (read_object r (heap (world s))); simpl; try rewrite T; simpl;
          eexists; destruct s as [[] ?]; reflexivity.
      + eexists; destruct s as [[] ?]; reflexivity. }
  clearbody x.
  destruct (Conn.top_level (context i) (world s)).
  - destruct X as (ctx & I & ->). simpl. repeat split; auto. now exists ctx.
  - destruct X as (e' & ->). simpl. repeat split; auto. now exists e'.
Qed.

Lemma destroyed_without_target_witness :
  exists s,
    constructed plain_options "" "" fresh_world s /\
    let i := mkInfo "top" None "about:blank" in
    let s1 := run_events [ContextCreated i; ContextDestroyed i] s in
    JsMap.get "top" (registry s1) = None /\
    registry (state_of (Browser.onContextDestroyed i s1)) = registry s1 /\
    effects_of (Browser.onContextDestroyed i s1) =
      [EBrowsingContextEmit 0 Destroyed 0].
Proof.
  eexists. split; [reflexivity |]. split; [reflexivity |].
  match goal with
  | |- context [Browser.onContextDestroyed ?i ?s] =>
      destruct (destroyed_without_target i s eq_refl) as (R & _ & ctx & _ & E)
  end.
  split; [exact R | reflexivity].
Defined.

(** C8 as stated fails: nothing was ever created, so the id of the event
    has no Target; the connection does not know the id either, and the
    handler fails before it emits the "destroyed" notification. *)
Lemma destroyed_unknown_context_emits_nothing :
  exists s,
    constructed plain_options "" "" fresh_world s /\
    let i := mkInfo "unknown" None "about:blank" in
    JsMap.get (context i) (registry s) = None /\
    Browser.onContextDestroyed i s =
      (Err "Context unknown does not exist", s, []).
Proof.
  eexists. split; [reflexivity |]. split; reflexivity.
Qed.

(** ** Taking a browser context out of the collection *)

Lemma for_each_effect {S A} (l : list A) (f : A -> Effect) (s : S) :
  for_each l (fun x s0 => (Ok tt, s0, [f x])) s = (Ok tt, s, map f l).
Proof.
  induction l as [|x r IH]; simpl; auto.
  unfold bind. rewrite IH. reflexivity.
Qed.

Lemma closeContext_unfold bc s :
  Browser._closeContext bc s =
  (Ok tt,
   mkSt (set_contexts (length (h_arrays (heap (world s)))) (browser s))
     (mkWorld (conn (world s))
        (snd (alloc_array
                (ArrContexts (filter (fun c => negb (same_context c bc))
                                (collection s)))
                (heap (world s))))),
   map EPageClose (Browser.targets_of bc (browser s))).
Proof.
  unfold Browser._closeContext.
  unfold_m. simpl. rewrite for_each_effect. simpl.
  destruct s as [[] [c h]]; reflexivity.
Qed.

Lemma closeContext_collection bc s :
  collection (state_of (Browser._closeContext bc s)) =
  filter (fun c => negb (same_context c bc)) (collection s).
Proof.
  rewrite closeContext_unfold. unfold state_of, collection at 1. simpl.
  unfold contexts_at, read_array. simpl.
  now rewrite nth_error_snoc.
Qed.

Lemma close_collection s :
  collection (state_of (Browser.close s)) = collection s /\
  browser (state_of (Browser.close s)) = browser s.
Proof.
  rewrite close_unfold.
  destruct (conn_closed (conn (world s))); simpl; split; reflexivity.
Qed.

(** ** Registrations of listeners *)

Lemma method_eqb_eq a b : method_eqb a b = true <-> a = b.
Proof. destruct a, b; simpl; split; congruence. Qed.

Lemma handler_eqb_eq a b : handler_eqb a b = true <-> a = b.
Proof.
  destruct a as [s m|n], b as [s' m'|n']; simpl; split; try congruence.
  - intros H. apply andb_true_iff in H. destruct H as [H1 H2].
    apply Nat.eqb_eq in H1. apply method_eqb_eq in H2. congruence.
  - intros [= -> ->]. rewrite Nat.eqb_refl. simpl. now apply method_eqb_eq.
  - intros H. apply Nat.eqb_eq in H. congruence.
  - intros [= ->]. apply Nat.eqb_refl.
Qed.

Lemma registration_eqb_eq a b : registration_eqb a b = true <-> a = b.
Proof.
  destruct a as [n h], b as [n' h']. unfold registration_eqb. simpl. split.
  - intros H. apply andb_true_iff in H. destruct H as [H1 H2].
    apply String.eqb_eq in H1. apply handler_eqb_eq in H2. congruence.
  - intros [= -> ->]. rewrite String.eqb_refl. simpl. now apply handler_eqb_eq.
Qed.

Lemma registration_eqb_refl a : registration_eqb a a = true.
Proof. now apply registration_eqb_eq. Qed.


Lemma registrations_app x l1 l2 :
  registrations x (l1 ++ l2) = registrations x l1 + registrations x l2.
Proof. unfold registrations. now rewrite filter_app, length_app. Qed.

Lemma registrations_remove_first x y l :
  registrations x (remove_first y l) =
  if registration_eqb x y then pred (registrations x l) else registrations x l.
Proof.
  unfold registrations. induction l as [|z r IH]; simpl.
  - now destruct (registration_eqb x y).
  - destruct (registration_eqb z y) eqn:E.
    + apply registration_eqb_eq in E. subst z.
      destruct (registration_eqb x y); simpl; auto.
    + simpl. destruct (registration_eqb x z) eqn:F; simpl; auto.
      destruct (registration_eqb x y) eqn:G; auto.
      apply registration_eqb_eq in F, G. subst.
      now rewrite registration_eqb_refl in E.
Qed.

Lemma registrations_remove_first_le x y l :
  registrations x (remove_first y l) <= registrations x l.
Proof.
  rewrite registrations_remove_first.
  destruct (registration_eqb x y); lia.
Qed.

Lemma registrations_remove_registrations x hs : forall l,
  registrations x (remove_registrations hs l) =
  registrations x l - registrations x hs.
Proof.
  induction hs as [|y r IH]; intros l; simpl.
  - change (registrations x []) with 0. lia.
  - rewrite IH, registrations_remove_first.
    change (registrations x (y :: r))
      with (length (if registration_eqb x y
                    then y :: filter (registration_eqb x) r
                    else filter (registration_eqb x) r)).
    fold (registrations x r).
    destruct (registration_eqb x y); simpl; fold (registrations x r); lia.
Qed.

Lemma registrations_In x l : In x l -> 1 <= registrations x l.
Proof.
  unfold registrations. induction l as [|y r IH]; simpl; intros H;
    try contradiction.
  destruct H as [->|H].
  - rewrite registration_eqb_refl. simpl. lia.
  - specialize (IH H). destruct (registration_eqb x y); simpl; lia.
Qed.

Lemma registrations_not_In x l : (forall y, In y l -> y <> x) -> registrations x l = 0.
Proof.
  unfold registrations. induction l as [|y r IH]; simpl; intros H; auto.
  destruct (registration_eqb x y) eqn:E.
  - apply registration_eqb_eq in E. subst. exfalso. apply (H y); auto.
  - apply IH. intros z I. apply H. auto.
Qed.

(** ** The invariants along any run *)

Lemma invoke_frame m e s : same_frame s (state_of (invoke m e s)).
Proof.
  destruct m, e; simpl;
    try apply same_frame_refl;
    auto using onContextCreated_frame, onContextDestroyed_frame,
      onContextNavigation_frame.
Qed.

Lemma emit_to_frame hs e : forall s, same_frame s (fst (emit_to hs e s)).
Proof.
  induction hs as [|[n h] r IH]; intros s; simpl.
  - apply same_frame_refl.
  - destruct (String.eqb n (event_name e)); [|apply IH].
    destruct h as [slot m|k]; [|apply IH].
    pose proof (invoke_frame m e s) as F. unfold state_of in F.
    destruct (invoke m e s) as [[res s1] t1]. simpl in F.
    specialize (IH s1). destruct (emit_to r e s1) as [s2 t2]. simpl in *.
    eapply same_frame_trans; eauto.
Qed.

Lemma same_frame_browser s s' :
  same_frame s s' ->
  p_contexts (browser s') = p_contexts (browser s) /\
  p_connectionEventHandlers (browser s') = p_connectionEventHandlers (browser s) /\
  p_defaultContext (browser s') = p_defaultContext (browser s) /\
  p_closeCallback (browser s') = p_closeCallback (browser s).
Proof.
  intros (A & _). rewrite <- A. destruct (browser s'); simpl. auto.
Qed.

Lemma step_contexts_allocated o s :
  contexts_allocated s -> contexts_allocated (step o s).
Proof.
  unfold contexts_allocated. intros [l R].
  assert (B : p_contexts (browser s) < length (h_arrays (heap (world s)))).
  { apply nth_error_Some. unfold read_array in R. now rewrite R. }
  destruct o; simpl.
  - pose proof (emit_to_frame (conn_handlers (conn (world s))) e s) as F.
    unfold deliver.
    destruct (same_frame_browser _ _ F) as (P & _).
    destruct F as (_ & A & _).
    exists l. unfold read_array in *. now rewrite P, A.
  - rewrite close_unfold.
    destruct (conn_closed (conn (world s))); simpl; eauto.
  - unfold Browser.onProcessClose. unfold_m. simpl. eauto.
  - unfold Browser.createIncognitoBrowserContext. unfold_m. simpl.
    exists (l ++ [mkBrowserContext (h_next_oid (heap (world s)))
                    (p_defaultViewport (browser s)) false]).
    unfold read_array, mutate_contexts, update_array in *. simpl.
    rewrite nth_error_list_update_same, R. reflexivity.
  - rewrite closeContext_unfold. simpl.
    eexists. unfold read_array. simpl. apply nth_error_snoc.
  - unfold Browser.browserContexts. unfold_m. simpl. eauto.
  - unfold Browser.targets. unfold_m. simpl.
    exists l. unfold read_array in *. simpl.
    now rewrite nth_error_app1.
  - unfold Browser.newPage. unfold_m. simpl. eauto.
  - unfold read_array, mutate_contexts, update_array in *. simpl.
    destruct (Nat.eq_dec r (p_contexts (browser s))) as [->|N].
    + rewrite nth_error_list_update_same, R. simpl. eauto.
    + rewrite nth_error_list_update_other by assumption. eauto.
  - unfold read_array, mutate_targets, update_array in *. simpl.
    destruct (Nat.eq_dec r (p_contexts (browser s))) as [->|N].
    + rewrite nth_error_list_update_same, R. simpl. eauto.
    + rewrite nth_error_list_update_other by assumption. eauto.
  - unfold_m. simpl. eauto.
  - unfold_m. simpl. eauto.
Qed.

Lemma run_ops_contexts_allocated ops : forall s,
  contexts_allocated s -> contexts_allocated (run_ops ops s).
Proof.
  induction ops as [|o r IH]; intros s H; simpl; auto.
  apply IH. now apply step_contexts_allocated.
Qed.

Lemma step_handlers_tracked o s :
  handlers_tracked s -> handlers_tracked (step o s).
Proof.
  unfold handlers_tracked. intros [T R].
  destruct o; simpl.
  - pose proof (emit_to_frame (conn_handlers (conn (world s))) e s) as F.
    unfold deliver.
    destruct (same_frame_browser _ _ F) as (_ & P & _).
    destruct F as (_ & _ & _ & A & _).
    rewrite P, A. auto.
  - rewrite close_unfold.
    destruct (conn_closed (conn (world s))); simpl; split; auto;
      intros x O; rewrite registrations_remove_registrations;
      specialize (R x O); lia.
  - unfold Browser.onProcessClose. unfold_m. simpl. auto.
  - unfold Browser.createIncognitoBrowserContext. unfold_m. simpl. auto.
  - rewrite closeContext_unfold. simpl. auto.
  - unfold Browser.browserContexts. unfold_m. simpl. auto.
  - unfold Browser.targets. unfold_m. simpl. auto.
  - unfold Browser.newPage. unfold_m. simpl. auto.
  - auto.
  - auto.
  - unfold_m. simpl. split; auto. intros x O.
    rewrite registrations_app.
    rewrite (registrations_not_In x [(n, OtherHandler k)]).
    + specialize (R x O). lia.
    + intros y [<-|[]] E. subst x. discriminate.
  - unfold_m. simpl. split; auto. intros x O.
    pose proof (registrations_remove_first_le x (n, OtherHandler k)
                  (conn_handlers (conn (world s)))).
    specialize (R x O). lia.
Qed.

Lemma run_ops_handlers_tracked ops : forall s,
  handlers_tracked s -> handlers_tracked (run_ops ops s).
Proof.
  induction ops as [|o r IH]; intros s H; simpl; auto.
  apply IH. now apply step_handlers_tracked.
Qed.

Lemma constructed_contexts_allocated opts name version w s :
  constructed opts name version w s -> contexts_allocated s.
Proof.
  intros C. destruct (constructed_facts _ _ _ _ _ C) as (_ & K & _).
  unfold contexts_allocated.
  unfold collection, contexts_at in K.
  destruct (read_array (p_contexts (browser s)) (heap (world s))) as [[l|l]|];
    try discriminate.
  eauto.
Qed.

Lemma constructed_handlers_tracked opts name version w s :
  no_browser_handler (conn w) ->
  constructed opts name version w s -> handlers_tracked s.
Proof.
  intros N C.
  destruct (constructed_facts _ _ _ _ _ C) as (_ & _ & _ & _ & _ & T & H & _).
  split; auto. intros x O. rewrite H, registrations_app.
  rewrite (registrations_not_In x (conn_handlers (conn w))); [lia |].
  intros [n h] I E. subst x. apply N in I. simpl in O. congruence.
Qed.

(** ** C10: close() takes the listeners off the connection *)

(** C10.  Whatever happened to a Browser since its construction on a
    connection that did not carry its listeners, [close()] first calls
    [off] for the four connection event handlers (contextCreated,
    contextDestroyed, fragmentNavigated, navigationStarted), on the
    early-return path of an already closed connection as well as on the
    disposing path, and when it returns none of the Browser's handlers
    is registered on the connection. *)
Theorem close_unregisters_all_handlers opts name version w s0 ops :
  no_browser_handler (conn w) ->
  constructed opts name version w s0 ->
  let s := run_ops ops s0 in
  effects_of (Browser.close s) =
    [ EOff "browsingContext.contextCreated" (BrowserHandler 0 MOnContextCreated);
      EOff "browsingContext.contextDestroyed" (BrowserHandler 1 MOnContextDestroyed);
      EOff "browsingContext.fragmentNavigated" (BrowserHandler 2 MOnContextNavigation);
      EOff "browsingContext.navigationStarted" (BrowserHandler 3 MOnContextNavigation) ]
    ++ (if conn_closed (conn (world s)) then []
        else EDispose ::
             match p_closeCallback (browser s) with
             | Some _ => [ECloseCallback]
             | None => []
             end) /\
  no_browser_handler (conn (world (state_of (Browser.close s)))).
Proof.
  intros N C s.
  assert (T : handlers_tracked s).
  { apply run_ops_handlers_tracked.
    eapply constructed_handlers_tracked; eauto. }
  destruct T as [T R].
  rewrite close_unfold.
  assert (H : no_browser_handler (conn (world (unregistered s)))).
  { intros n h I.
    destruct (is_browser_handler h) eqn:O; auto.
    apply registrations_In in I. unfold unregistered in I. simpl in I.
    rewrite registrations_remove_registrations, T in I.
    specialize (R (n, h) O). lia. }
  rewrite T.
  destruct (conn_closed (conn (world s))); simpl; split; auto.
Qed.

Lemma close_unregisters_all_handlers_witness :
  exists s0,
    constructed plain_options "" "" fresh_world s0 /\
    let s := run_ops [ OpDeliver (ContextCreated (mkInfo "top" None "about:blank"));
                       OpProcessClose ] s0 in
    conn_closed (conn (world s)) = true /\
    no_browser_handler (conn (world (state_of (Browser.close s)))).
Proof.
  eexists. split; [reflexivity |]. split; [reflexivity |].
  refine (proj2 (close_unregisters_all_handlers plain_options "" "" fresh_world
                   _ _ _ eq_refl)).
  intros n h [].
Defined.

(** ** C9: what callers can reach through the returned arrays *)

(** C9 (amended).  In every state a Browser goes through, [targets()]
    returns a new array that holds the registered targets; whatever the
    caller then does to that array, the Target registry and the Browser
    Context collection stay as they were.  [browserContexts()] returns
    the array of the collection itself: what the caller does to that
    array is done to the collection. *)
Theorem targets_is_a_copy_browserContexts_is_not opts name version w s0 ops :
  constructed opts name version w s0 ->
  let s := run_ops ops s0 in
  (exists r s1,
     Browser.targets s = (Ok r, s1, []) /\
     targets_at r (heap (world s1)) = JsMap.values (registry s) /\
     registry s1 = registry s /\
     collection s1 = collection s /\
     forall f,
       targets_at r (heap (world (step (OpMutateTargets r f) s1))) =
         f (JsMap.values (registry s)) /\
       registry (step (OpMutateTargets r f) s1) = registry s /\
       collection (step (OpMutateTargets r f) s1) = collection s) /\
  (exists r,
     Browser.browserContexts s = (Ok r, s, []) /\
     forall f, collection (step (OpMutateContexts r f) s) = f (collection s)).
Proof.
  intros C s.
  assert (A : contexts_allocated s).
  { apply run_ops_contexts_allocated.
    eapply constructed_contexts_allocated; eauto. }
  destruct A as [l R].
  assert (B : p_contexts (browser s) < length (h_arrays (heap (world s)))).
  { apply nth_error_Some. unfold read_array in R. now rewrite R. }
  split.
  - eexists. eexists. split; [reflexivity |].
    unfold targets_at, collection, contexts_at, read_array in *. simpl.
    rewrite nth_error_snoc.
    rewrite nth_error_app1 by assumption.
    repeat split; auto.
    + unfold mutate_targets, update_array. simpl.
      now rewrite nth_error_list_update_same, nth_error_snoc.
    + unfold mutate_targets, update_array. simpl.
      rewrite nth_error_list_update_other by lia.
      now rewrite nth_error_app1 by assumption.
  - exists (p_contexts (browser s)). split.
    + unfold Browser.browserContexts, gets. reflexivity.
    + intros f. simpl.
      unfold collection, contexts_at, read_array, mutate_contexts, update_array
        in *. simpl.
      now rewrite nth_error_list_update_same, R.
Qed.

Lemma targets_is_a_copy_browserContexts_is_not_witness :
  exists s0,
    constructed plain_options "" "" fresh_world s0 /\
    let s := run_ops [ OpDeliver (ContextCreated (mkInfo "top" None "about:blank")) ]
               s0 in
    exists r s1,
      Browser.targets s = (Ok r, s1, []) /\
      registry (step (OpMutateTargets r (fun _ => [])) s1) = registry s /\
      collection (step (OpMutateTargets r (fun _ => [])) s1) = collection s.
Proof.
  eexists. split; [reflexivity |].
  destruct (targets_is_a_copy_browserContexts_is_not plain_options "" ""
              fresh_world _
              [ OpDeliver (ContextCreated (mkInfo "top" None "about:blank")) ]
              eq_refl)
    as [(r & s1 & T & _ & _ & _ & M) _].
  exists r, s1. split; [exact T |].
  destruct (M (fun _ => [])) as (_ & M1 & M2). split; assumption.
Defined.

(** C9 as stated fails: the caller of [browserContexts()] holds the
    array of the collection and can empty it. *)
Lemma browserContexts_exposes_the_collection :
  exists s r,
    constructed plain_options "" "" fresh_world s /\
    Browser.browserContexts s = (Ok r, s, []) /\
    collection s = [p_defaultContext (browser s)] /\
    collection (step (OpMutateContexts r (fun _ => [])) s) = [].
Proof.
  eexists. eexists. split; [reflexivity |]. repeat split; reflexivity.
Qed.

(** ** Browser.create, step by step *)

Lemma subscriptions_app t1 t2 :
  subscriptions (t1 ++ t2) = subscriptions t1 ++ subscriptions t2.
Proof.
  induction t1 as [|e r IH]; simpl; auto.
  destruct e; auto. destruct c; simpl; auto. now rewrite IH.
Qed.

Lemma constructor_total opts name version w :
  exists b w1 t1,
    Browser.constructor opts name version w = (Ok b, w1, t1) /\
    constructed opts name version w (mkSt b w1) /\
    subscriptions t1 = [] /\
    reply_getTree (conn w1) = reply_getTree (conn w).
Proof.
  unfold constructed, new_Browser, Browser.constructor. unfold_m.
  destruct (opt_process opts); simpl;
    do 3 eexists; (split; [reflexivity |]); simpl; auto.
Qed.

Lemma getTree_unfold s :
  Browser.getTree s =
  match reply_getTree (conn (world s)) with
  | Err e => (Err e, s, [ESend BrowsingContextGetTree])
  | Ok infos =>
      match for_each infos Browser.onContextCreated s with
      | (r, s', t) => (r, s', ESend BrowsingContextGetTree :: t)
      end
  end.
Proof.
  unfold Browser.getTree. unfold_m. simpl.
  destruct s as [b w]; simpl.
  destruct (reply_getTree (conn w)) as [infos|e]; simpl; auto.
Qed.

Lemma create_unfold opts w :
  Browser.create opts w =
  match reply_session_subscribe (conn w) (chosen_events w) with
  | Err e => (Err e, w, negotiation_effects opts w)
  | Ok _ =>
      match Browser.constructor opts (negotiated_name w) (negotiated_version w) w with
      | (Ok b, w1, t1) =>
          match Browser.getTree (mkSt b w1) with
          | (Ok _, s2, t2) =>
              (Ok (browser s2), world s2, negotiation_effects opts w ++ t1 ++ t2)
          | (Err e, s2, t2) =>
              (Err e, world s2, negotiation_effects opts w ++ t1 ++ t2)
          end
      | (Err e, w1, t1) => (Err e, w1, negotiation_effects opts w ++ t1)
      end
  end.
Proof.
  unfold Browser.create, Browser.create_in, negotiation_effects, chosen_events,
    negotiated_name, negotiated_version.
  unfold bind, try_catch, Conn.send_session_new, Conn.send_session_subscribe,
    with_browser, ret, effect, gets, of_result. simpl.
  destruct (reply_session_new (conn w)) as [[n v]|e]; simpl;
    match goal with
    | |- context [reply_session_subscribe (conn w) ?evs] =>
        destruct (reply_session_subscribe (conn w) evs) as [[]|e']
    end; simpl; auto;
    match goal with
    | |- context [Browser.constructor ?o ?a ?b ?c] =>
        destruct (Browser.constructor o a b c) as [[[b0|e0] w1] t1]
    end; simpl; auto;
    match goal with
    | |- context [Browser.getTree ?s] =>
        destruct (Browser.getTree s) as [[[[]|e1] s2] t2]
    end; simpl; rewrite ?app_nil_r; auto.
Qed.

Lemma onContextCreated_no_subscription i s :
  subscriptions (effects_of (Browser.onContextCreated i s)) = [].
Proof.
  unfold Browser.onContextCreated. unfold_m. simpl.
  break_all; auto.
Qed.

Lemma onContextCreated_top_level i s :
  at_last (collection s) <> None ->
  truthy (parent i) = false ->
  result_of (Browser.onContextCreated i s) = Ok tt.
Proof.
  intros NE P. unfold Browser.onContextCreated. unfold_m. simpl.
  unfold collection in NE.
  change (contexts_at (p_contexts (browser s))
            (mkHeap (h_objects (heap (world s)) ++
                      [mkBrowsingContext (context i) (parent i) (url i)])
               (h_arrays (heap (world s))) (h_next_oid (heap (world s)))))
    with (contexts_at (p_contexts (browser s)) (heap (world s))).
  destruct (at_last (contexts_at (p_contexts (browser s)) (heap (world s))));
    [|contradiction].
  simpl. destruct (parent i) as [p|]; simpl in *; [|reflexivity].
  rewrite P. reflexivity.
Qed.

(** Seeding the registry from the tree. *)
Lemma seed_tree infos : forall s,
  same_frame s (state_of (for_each infos Browser.onContextCreated s)) /\
  subscriptions (effects_of (for_each infos Browser.onContextCreated s)) = [] /\
  (at_last (collection s) <> None ->
   (forall i, In i infos -> truthy (parent i) = false) ->
   result_of (for_each infos Browser.onContextCreated s) = Ok tt).
Proof.
  induction infos as [|i r IH]; intros s; simpl.
  - split; [apply same_frame_refl | auto].
  - pose proof (onContextCreated_frame i s) as F.
    pose proof (onContextCreated_no_subscription i s) as N.
    pose proof (onContextCreated_top_level i s) as T.
    unfold bind, state_of, effects_of, result_of in *.
    destruct (Browser.onContextCreated i s) as [[[[]|e] s1] t1]; simpl in *.
    + destruct (IH s1) as (F' & N' & T').
      destruct (for_each r Browser.onContextCreated s1) as [[r2 s2] t2];
        simpl in *.
      split; [eapply same_frame_trans; eauto |].
      split; [now rewrite subscriptions_app, N, N' |].
      intros NE P. apply T'.
      * now rewrite (same_frame_collection _ _ F).
      * auto.
    + split; [assumption |]. split; [assumption |].
      intros NE P. apply T; auto.
Qed.

(** ** C4: the initial tree fetch fails *)

(** C4.  If the browsingContext.getTree command of [create] fails,
    [create] returns no Browser: its outcome is an error, and when the
    session.subscribe command before it succeeded the error is the one
    of the tree fetch. *)
Theorem create_fails_when_tree_fetch_fails opts w e :
  reply_getTree (conn w) = Err e ->
  is_ok (result_of (Browser.create opts w)) = false /\
  ((forall evs, reply_session_subscribe (conn w) evs = Ok tt) ->
   result_of (Browser.create opts w) = Err e).
Proof.
  intros G. rewrite create_unfold.
  destruct (constructor_total opts (negotiated_name w) (negotiated_version w) w)
    as (b & w1 & t1 & -> & _ & _ & R).
  rewrite getTree_unfold. simpl. rewrite R, G.
  split.
  - destruct (reply_session_subscribe (conn w) (chosen_events w)); reflexivity.
  - intros S. rewrite S. reflexivity.
Qed.

Lemma create_fails_when_tree_fetch_fails_witness :
  let w := mkWorld
             (mkConnection "ws://127.0.0.1:9222/session" false [] JsMap.empty
                (Ok (mkCapabilities (Some "firefox") (Some "115.0")))
                (fun _ => Ok tt) (Err "no such frame"))
             (mkHeap [] [] 0) in
  result_of (Browser.create plain_options w) = Err "no such frame".
Proof.
  intros w.
  apply (proj2 (create_fails_when_tree_fetch_fails plain_options w
                  "no such frame" eq_refl)).
  intros evs. reflexivity.
Defined.

(** ** C7: the negotiation fails *)

Lemma same_frame_names s s' :
  same_frame s s' ->
  p_browserName (browser s') = p_browserName (browser s) /\
  p_browserVersion (browser s') = p_browserVersion (browser s).
Proof.
  intros (A & _). rewrite <- A. destruct (browser s'); simpl. auto.
Qed.

(** What [create] returns when it returns a Browser. *)
Lemma create_returns opts w b :
  result_of (Browser.create opts w) = Ok b ->
  p_browserName b = negotiated_name w /\
  p_browserVersion b = negotiated_version w.
Proof.
  rewrite create_unfold.
  destruct (reply_session_subscribe (conn w) (chosen_events w)) as [[]|e'];
    [|discriminate].
  destruct (constructor_total opts (negotiated_name w) (negotiated_version w) w)
    as (b0 & w1 & t1 & -> & C & _ & R).
  rewrite getTree_unfold. simpl.
  destruct (constructed_facts _ _ _ _ _ C) as (_ & _ & _ & N & V & _).
  simpl in N, V.
  destruct (reply_getTree (conn w1)) as [infos|e1]; [|discriminate].
  destruct (seed_tree infos (mkSt b0 w1)) as (F & _).
  unfold state_of in F.
  destruct (for_each infos Browser.onContextCreated (mkSt b0 w1))
    as [[[[]|e2] s2] t2]; simpl in *; [|discriminate].
  intros [= <-]. destruct (same_frame_names _ _ F) as [A B]. simpl in *.
  now rewrite A, B.
Qed.

(** C7.  If session.new fails, [create] passes the error to
    [debugError] and goes on to subscribe (to the base modules and the
    CDP events, the engine name being empty); a Browser it returns has
    the empty string as name and as version, so that [version()] is
    "/"; and it does return a Browser, with the default browser context
    in place, when the two later commands succeed and the tree holds
    top-level contexts. *)
Theorem create_survives_failed_negotiation opts w e :
  reply_session_new (conn w) = Err e ->
  (exists rest,
     effects_of (Browser.create opts w) =
       ESend (SessionNew (opt_ignoreHTTPSErrors opts)) ::
       EDebugError e ::
       ESend (SessionSubscribe
                (Browser.subscribeModules ++ Browser.subscribeCdpEvents)) ::
       rest) /\
  (forall b,
     result_of (Browser.create opts w) = Ok b ->
     p_browserName b = "" /\
     p_browserVersion b = "" /\
     result_of (Browser.version (mkSt b (state_of (Browser.create opts w))))
       = Ok "/") /\
  (forall infos,
     (forall evs, reply_session_subscribe (conn w) evs = Ok tt) ->
     reply_getTree (conn w) = Ok infos ->
     (forall i, In i infos -> truthy (parent i) = false) ->
     exists b,
       result_of (Browser.create opts w) = Ok b /\
       collection (mkSt b (state_of (Browser.create opts w)))
         = [p_defaultContext b]).
Proof.
  intros H.
  assert (N : negotiated_name w = "") by (unfold negotiated_name; now rewrite H).
  assert (V : negotiated_version w = "")
    by (unfold negotiated_version; now rewrite H).
  assert (E : chosen_events w =
              Browser.subscribeModules ++ Browser.subscribeCdpEvents)
    by (unfold chosen_events; now rewrite N).
  split; [|split].
  - rewrite create_unfold. unfold negotiation_effects. rewrite H, E.
    destruct (reply_session_subscribe (conn w)
                (Browser.subscribeModules ++ Browser.subscribeCdpEvents))
      as [[]|e'].
    + destruct (Browser.constructor opts (negotiated_name w)
                  (negotiated_version w) w) as [[[b|e0] w1] t1].
      * destruct (Browser.getTree (mkSt b w1)) as [[[[]|e1] s2] t2];
          eexists; reflexivity.
      * eexists; reflexivity.
    + eexists; reflexivity.
  - intros b R. destruct (create_returns _ _ _ R) as [A B].
    rewrite N in A. rewrite V in B.
    repeat split; auto.
    unfold Browser.version, gets, result_of. simpl. now rewrite A, B.
  - intros infos S G P.
    rewrite create_unfold, S.
    destruct (constructor_total opts (negotiated_name w) (negotiated_version w) w)
      as (b0 & w1 & t1 & -> & C & _ & R).
    rewrite getTree_unfold. simpl. rewrite R, G.
    destruct (constructed_facts _ _ _ _ _ C) as (_ & K & _).
    destruct (seed_tree infos (mkSt b0 w1)) as (F & _ & O).
    assert (NE : at_last (collection (mkSt b0 w1)) <> None)
      by (rewrite K; discriminate).
    specialize (O NE P).
    pose proof (same_frame_collection _ _ F) as KC.
    destruct (same_frame_browser _ _ F) as (_ & _ & D & _).
    unfold state_of, result_of in *.
    destruct (for_each infos Browser.onContextCreated (mkSt b0 w1))
      as [[r2 s2] t2]; simpl in *. subst r2. simpl.
    exists (browser s2). split; [reflexivity |].
    rewrite <- D in K. rewrite <- K, <- KC.
    destruct s2; reflexivity.
Qed.

Lemma create_survives_failed_negotiation_witness :
  exists b,
    result_of (Browser.create plain_options fresh_world) = Ok b /\
    p_browserName b = "" /\
    p_browserVersion b = "" /\
    result_of (Browser.version
                 (mkSt b (state_of (Browser.create plain_options fresh_world))))
      = Ok "/".
Proof.
  destruct (create_survives_failed_negotiation plain_options fresh_world
              "unknown command" eq_refl) as (_ & Named & Returned).
  destruct (Returned [] (fun _ => eq_refl) eq_refl
              (fun i (H : In i []) => match H with end)) as (b & R & _).
  exists b. split; [exact R |]. exact (Named b R).
Defined.

(** ** Strings: [includes] after [toLocaleLowerCase] *)








(** ** The subscription of [create] *)

Lemma create_subscriptions opts w :
  subscriptions (effects_of (Browser.create opts w)) = [chosen_events w].
Proof.
  rewrite create_unfold.
  assert (N : subscriptions (negotiation_effects opts w) = [chosen_events w]).
  { unfold negotiation_effects. simpl.
    destruct (reply_session_new (conn w)); reflexivity. }
  remember (negotiation_effects opts w) as ne eqn:NE. clear NE.
  destruct (reply_session_subscribe (conn w) (chosen_events w)) as [[]|e'];
    [|exact N].
  destruct (constructor_total opts (negotiated_name w) (negotiated_version w) w)
    as (b0 & w1 & t1 & -> & _ & T1 & _).
  rewrite getTree_unfold. simpl.
  destruct (reply_getTree (conn w1)) as [infos|e1].
  - destruct (seed_tree infos (mkSt b0 w1)) as (_ & T2 & _).
    unfold effects_of in *.
    destruct (for_each infos Browser.onContextCreated (mkSt b0 w1))
      as [[[[]|e2] s2] t2]; simpl in *;
      rewrite !subscriptions_app, N, T1; simpl; now rewrite T2.
  - unfold effects_of. simpl. rewrite !subscriptions_app, N, T1. reflexivity.
Qed.

(** * Further properties *)

(** ** More on JavaScript maps *)

Lemma get_set_other {V} k k' (v : V) m :
  k' <> k -> JsMap.get k (JsMap.set k' v m) = JsMap.get k m.
Proof.
  intros N. induction m as [|[k0 v0] r IH]; simpl.
  - apply String.eqb_neq in N. now rewrite N.
  - destruct (String.eqb k0 k') eqn:E; simpl.
    + apply String.eqb_eq in E. subst k0.
      apply String.eqb_neq in N. now rewrite N.
    + destruct (String.eqb k0 k); auto.
Qed.

Lemma get_delete_same {V} k (m : JsMap.t V) : JsMap.get k (JsMap.delete k m) = None.
Proof.
  unfold JsMap.delete. induction m as [|[k0 v0] r IH]; simpl; auto.
  destruct (String.eqb k0 k) eqn:E; simpl; auto. now rewrite E.
Qed.

Lemma get_delete_other {V} k k' (m : JsMap.t V) :
  k' <> k -> JsMap.get k (JsMap.delete k' m) = JsMap.get k m.
Proof.
  intros N. unfold JsMap.delete. induction m as [|[k0 v0] r IH]; simpl; auto.
  destruct (String.eqb k0 k') eqn:E; simpl.
  - apply String.eqb_eq in E. subst k0.
    apply String.eqb_neq in N. now rewrite N.
  - destruct (String.eqb k0 k); auto.
Qed.


Lemma set_absent {V} k (v : V) m :
  JsMap.get k m = None -> JsMap.set k v m = m ++ [(k, v)].
Proof.
  induction m as [|[k0 v0] r IH]; simpl; auto.
  destruct (String.eqb k0 k); [discriminate |].
  intros H. now rewrite IH.
Qed.

Lemma keys_set_present {V} k (v : V) m :
  JsMap.get k m <> None -> JsMap.keys (JsMap.set k v m) = JsMap.keys m.
Proof.
  unfold JsMap.keys. induction m as [|[k0 v0] r IH]; simpl.
  - congruence.
  - destruct (String.eqb k0 k) eqn:E; simpl.
    + apply String.eqb_eq in E. now subst.
    + intros H. now rewrite IH.
Qed.

(** ** Looking a target up by id *)

Lemma getTargetById_unfold id s :
  Browser._getTargetById id s =
  match JsMap.get id (registry s) with
  | Some t => (Ok t, s, [])
  | None => (Err "Target not found", s, [])
  end.
Proof.
  unfold Browser._getTargetById, registry. unfold_m.
  destruct (JsMap.get id (p_targets (browser s))); reflexivity.
Qed.

(** X1.  A context-created event handled while the Browser has a
    browser context makes [_getTargetById] return, for the id of the
    event, the target built for it in the last browser context; a
    context-destroyed event that is handled without failing makes
    [_getTargetById] fail for its id with "Target not found". *)
Theorem getTargetById_follows_events i s :
  (forall bc,
     at_last (collection s) = Some bc ->
     result_of (Browser._getTargetById (context i)
                  (state_of (Browser.onContextCreated i s)))
       = Ok (target_for i bc (length (h_objects (heap (world s)))))) /\
  (result_of (Browser.onContextDestroyed i s) = Ok tt ->
   result_of (Browser._getTargetById (context i)
                (state_of (Browser.onContextDestroyed i s)))
     = Err "Target not found").
Proof.
  split.
  - intros bc L. rewrite getTargetById_unfold.
    rewrite (onContextCreated_state i s bc L), get_set_same. reflexivity.
  - intros O. rewrite getTargetById_unfold.
    destruct (onContextDestroyed_state i s) as [(F & _)|(_ & R)].
    + rewrite O in F. discriminate.
    + rewrite R, get_delete_same. reflexivity.
Qed.

Lemma getTargetById_follows_events_witness :
  exists s,
    constructed plain_options "" "" fresh_world s /\
    let i := mkInfo "top" None "about:blank" in
    let s1 := state_of (Browser.onContextCreated i s) in
    result_of (Browser._getTargetById "top" s1)
      = Ok (mkTarget PageTarget (p_defaultContext (browser s)) 0) /\
    result_of (Browser.onContextDestroyed i s1) = Ok tt /\
    result_of (Browser._getTargetById "top"
                 (state_of (Browser.onContextDestroyed i s1)))
      = Err "Target not found".
Proof.
  eexists. split; [reflexivity |].
  split; [|split; [reflexivity |]].
  - match goal with
    | |- context [Browser.onContextCreated ?i ?s] =>
        exact (proj1 (getTargetById_follows_events i s) _ eq_refl)
    end.
  - match goal with
    | |- context [Browser.onContextDestroyed ?i ?s] =>
        exact (proj2 (getTargetById_follows_events i s) eq_refl)
    end.
Defined.

(** The registry entry of an id changes only through events for that
    id. *)
Lemma handle_get_other e s id :
  (forall i, e = ContextCreated i -> context i <> id) ->
  JsMap.get id (registry s) = None ->
  JsMap.get id (registry (state_of (handle e s))) = None.
Proof.
  intros N G. destruct e as [i|i|n|n]; simpl.
  - specialize (N i eq_refl).
    destruct (at_last (collection s)) as [bc|] eqn:L.
    + rewrite (onContextCreated_state i s bc L), get_set_other; auto.
    + destruct (onContextCreated_missing i s L) as (_ & R & _). now rewrite R.
  - destruct (onContextDestroyed_state i s) as [(_ & S & _)|(_ & R)].
    + now rewrite S.
    + rewrite R. destruct (String.eqb (context i) id) eqn:E.
      * apply String.eqb_eq in E. subst id. apply get_delete_same.
      * apply String.eqb_neq in E. rewrite get_delete_other; auto.
  - now rewrite onContextNavigation_registry.
  - now rewrite onContextNavigation_registry.
Qed.

(** X2.  An id for which no context-created event was ever handled is
    not found: after any sequence of events that creates other ids only,
    [_getTargetById] fails with "Target not found", without effect and
    without changing the state. *)
Theorem getTargetById_never_created opts name version w s evs id :
  constructed opts name version w s ->
  ~ In id (created_ids evs) ->
  Browser._getTargetById id (run_events evs s)
    = (Err "Target not found", run_events evs s, []).
Proof.
  intros C N. rewrite getTargetById_unfold.
  destruct (constructed_facts _ _ _ _ _ C) as (R & _).
  assert (G : JsMap.get id (registry s) = None) by now rewrite R.
  clear C R.
  assert (H : JsMap.get id (registry (run_events evs s)) = None).
  { revert s G. induction evs as [|e r IH]; intros s G; simpl; auto.
    apply IH.
    - intros I. apply N. destruct e; simpl; auto.
    - apply handle_get_other; auto.
      intros i ->. intros E. apply N. simpl. auto. }
  now rewrite H.
Qed.

Lemma getTargetById_never_created_witness :
  exists s,
    constructed plain_options "" "" fresh_world s /\
    let evs := [ ContextCreated (mkInfo "top" None "about:blank");
                 NavigationStarted (mkNavigationInfo "top" "https://example.org/") ] in
    result_of (Browser._getTargetById "other" (run_events evs s))
      = Err "Target not found".
Proof.
  eexists. split; [reflexivity |]. cbv zeta.
  refine (f_equal result_of
            (getTargetById_never_created plain_options "" "" fresh_world
               _ _ "other" eq_refl _)).
  simpl. intros [H|[]]. discriminate.
Defined.

(** ** Seeding the registry from the initial tree *)





(** ** Further browser contexts *)

Lemma at_last_snoc {A} (l : list A) x : at_last (l ++ [x]) = Some x.
Proof.
  unfold at_last. rewrite length_app. simpl.
  replace (length l + 1 - 1) with (length l) by lia.
  apply nth_error_snoc.
Qed.

Lemma createIncognito_unfold s :
  let c := mkBrowserContext (h_next_oid (heap (world s)))
             (p_defaultViewport (browser s)) false in
  Browser.createIncognitoBrowserContext s =
  (Ok c,
   mkSt (browser s)
     (mkWorld (conn (world s))
        (mutate_contexts (p_contexts (browser s)) (fun l => l ++ [c])
           (snd (fresh_oid (heap (world s)))))),
   []).
Proof.
  unfold Browser.createIncognitoBrowserContext. unfold_m. reflexivity.
Qed.

Lemma createIncognito_collection s :
  contexts_allocated s ->
  collection (state_of (Browser.createIncognitoBrowserContext s)) =
  collection s ++
  [mkBrowserContext (h_next_oid (heap (world s)))
     (p_defaultViewport (browser s)) false].
Proof.
  intros [l R]. rewrite createIncognito_unfold.
  unfold state_of, collection, contexts_at, read_array, mutate_contexts,
    update_array in *. simpl.
  now rewrite nth_error_list_update_same, R.
Qed.

(** X4.  In every state a Browser goes through,
    [createIncognitoBrowserContext()] succeeds without sending anything
    and appends one context to the Browser Context collection, in the
    array the Browser already had: the new context is not the default
    one, has the default viewport of the Browser, and is the last
    element of the collection; the registry and the fields of the
    Browser stay as they were, and a second call returns a different
    context. *)
Theorem createIncognito_appends_context opts name version w s0 ops :
  constructed opts name version w s0 ->
  let s := run_ops ops s0 in
  exists c s1,
    Browser.createIncognitoBrowserContext s = (Ok c, s1, []) /\
    browser s1 = browser s /\
    collection s1 = collection s ++ [c] /\
    at_last (collection s1) = Some c /\
    ctx_isDefault c = false /\
    ctx_defaultViewport c = p_defaultViewport (browser s) /\
    forall c2,
      result_of (Browser.createIncognitoBrowserContext s1) = Ok c2 ->
      same_context c c2 = false.
Proof.
  intros C s.
  assert (A : contexts_allocated s).
  { apply run_ops_contexts_allocated.
    eapply constructed_contexts_allocated; eauto. }
  pose proof (createIncognito_collection s A) as K.
  exists (mkBrowserContext (h_next_oid (heap (world s)))
            (p_defaultViewport (browser s)) false),
         (state_of (Browser.createIncognitoBrowserContext s)).
  split; [rewrite createIncognito_unfold; reflexivity |].
  split; [rewrite createIncognito_unfold; reflexivity |].
  split; [exact K |].
  split; [rewrite K; apply at_last_snoc |].
  split; [reflexivity |]. split; [reflexivity |].
  intros c2. rewrite !createIncognito_unfold. unfold result_of. simpl.
  intros [= <-]. unfold same_context. simpl.
  apply Nat.eqb_neq. lia.
Qed.

Lemma createIncognito_appends_context_witness :
  exists s0,
    constructed plain_options "" "" fresh_world s0 /\
    let s := run_ops [ OpDeliver (ContextCreated (mkInfo "top" None "about:blank")) ]
               s0 in
    exists c s1,
      Browser.createIncognitoBrowserContext s = (Ok c, s1, []) /\
      collection s1 = [p_defaultContext (browser s0); c] /\
      ctx_isDefault c = false.
Proof.
  eexists. split; [reflexivity |].
  destruct (createIncognito_appends_context plain_options "" "" fresh_world _
              [ OpDeliver (ContextCreated (mkInfo "top" None "about:blank")) ]
              eq_refl)
    as (c & s1 & E & _ & K & _ & D & _).
  exists c, s1. split; [exact E |]. split; [exact K | exact D].
Defined.

(** X5.  The targets of the contexts created after
    [createIncognitoBrowserContext()] belong to the context that call
    returned, the last of the collection, and not to the default
    browser context. *)
Theorem new_targets_go_to_newest_context opts name version w s0 ops i :
  constructed opts name version w s0 ->
  let s := run_ops ops s0 in
  let x := Browser.createIncognitoBrowserContext s in
  exists c t,
    result_of x = Ok c /\
    result_of (Browser._getTargetById (context i)
                 (state_of (Browser.onContextCreated i (state_of x))))
      = Ok t /\
    t_browserContext t = c /\
    ctx_isDefault (t_browserContext t) = false.
Proof.
  intros C s x.
  assert (A : contexts_allocated s).
  { apply run_ops_contexts_allocated.
    eapply constructed_contexts_allocated; eauto. }
  pose proof (createIncognito_collection s A) as K. fold x in K.
  assert (L : at_last (collection (state_of x)) =
              Some (mkBrowserContext (h_next_oid (heap (world s)))
                      (p_defaultViewport (browser s)) false))
    by (rewrite K; apply at_last_snoc).
  do 2 eexists. split.
  - subst x. rewrite createIncognito_unfold. reflexivity.
  - rewrite getTargetById_unfold.
    rewrite (onContextCreated_state i _ _ L), get_set_same.
    split; [reflexivity |]. split; reflexivity.
Qed.

Lemma new_targets_go_to_newest_context_witness :
  exists s0,
    constructed plain_options "" "" fresh_world s0 /\
    let x := Browser.createIncognitoBrowserContext s0 in
    let i := mkInfo "tab" None "about:blank" in
    exists c t,
      result_of x = Ok c /\
      result_of (Browser._getTargetById "tab"
                   (state_of (Browser.onContextCreated i (state_of x)))) = Ok t /\
      t_browserContext t = c.
Proof.
  eexists. split; [reflexivity |].
  destruct (new_targets_go_to_newest_context plain_options "" "" fresh_world _
              [] (mkInfo "tab" None "about:blank") eq_refl)
    as (c & t & R & G & B & _).
  exists c, t. split; [exact R |]. split; [exact G | exact B].
Defined.

(** X6.  In every state a Browser goes through, [_closeContext]
    succeeds, asks for the page of each registered target of the given
    context, in the order of the registry, to be closed and for nothing
    else, and leaves the registry as it is: the targets of the closed
    context stay registered.  The collection loses the given context
    and keeps the others in their order.  The Browser gets a new array
    for it: the array that [browserContexts()] returned before the call
    is not changed. *)
Theorem closeContext_keeps_targets opts name version w s0 ops bc :
  constructed opts name version w s0 ->
  let s := run_ops ops s0 in
  exists s1,
    Browser._closeContext bc s =
      (Ok tt, s1, map EPageClose (Browser.targets_of bc (browser s))) /\
    registry s1 = registry s /\
    collection s1 = filter (fun c => negb (same_context c bc)) (collection s) /\
    p_contexts (browser s1) <> p_contexts (browser s) /\
    contexts_at (p_contexts (browser s)) (heap (world s1)) = collection s.
Proof.
  intros C s.
  assert (A : contexts_allocated s).
  { apply run_ops_contexts_allocated.
    eapply constructed_contexts_allocated; eauto. }
  destruct A as [l R].
  assert (B : p_contexts (browser s) < length (h_arrays (heap (world s)))).
  { apply nth_error_Some. unfold read_array in R. now rewrite R. }
  pose proof (closeContext_collection bc s) as K.
  exists (state_of (Browser._closeContext bc s)).
  split; [rewrite closeContext_unfold; reflexivity |].
  split; [rewrite closeContext_unfold; reflexivity |].
  split; [exact K |].
  rewrite closeContext_unfold. unfold state_of. simpl. split.
  - lia.
  - unfold collection, contexts_at, read_array. simpl.
    now rewrite nth_error_app1.
Qed.

Lemma closeContext_keeps_targets_witness :
  exists s0,
    constructed plain_options "" "" fresh_world s0 /\
    let s := run_ops [ OpCreateIncognitoBrowserContext;
                       OpDeliver (ContextCreated (mkInfo "tab" None "about:blank")) ]
               s0 in
    let incognito := mkBrowserContext 1 None false in
    exists s1,
      effects_of (Browser._closeContext incognito s)
        = [EPageClose (mkTarget PageTarget incognito 0)] /\
      state_of (Browser._closeContext incognito s) = s1 /\
      registry s1 = registry s /\
      collection s1 = [p_defaultContext (browser s0)].
Proof.
  eexists. split; [reflexivity |]. cbv zeta.
  match goal with
  | |- context [Browser._closeContext ?bc (run_ops ?ops ?s)] =>
      destruct (closeContext_keeps_targets plain_options "" "" fresh_world s
                  ops bc eq_refl) as (s1 & E & R & K & _)
  end.
  exists s1. rewrite E. split; [reflexivity |]. split; [reflexivity |].
  split; [exact R | exact K].
Defined.

(** ** Events through the connection *)

Lemma emit_to_inert hs e : forall s,
  (forall n h, In (n, h) hs -> is_browser_handler h = false) ->
  emit_to hs e s = (s, []).
Proof.
  induction hs as [|[n h] r IH]; intros s H; simpl; auto.
  assert (Hr : forall n0 h0, In (n0, h0) r -> is_browser_handler h0 = false)
    by (intros n0 h0 I; apply (H n0 h0); now right).
  destruct (String.eqb n (event_name e)); auto.
  destruct h as [slot m|k]; auto.
  specialize (H n (BrowserHandler slot m) (or_introl eq_refl)). discriminate.
Qed.

Lemma emit_to_app_inert l1 l2 e s :
  (forall n h, In (n, h) l1 -> is_browser_handler h = false) ->
  emit_to (l1 ++ l2) e s = emit_to l2 e s.
Proof.
  induction l1 as [|[n h] r IH]; intros H; simpl; auto.
  assert (Hr : forall n0 h0, In (n0, h0) r -> is_browser_handler h0 = false)
    by (intros n0 h0 I; apply (H n0 h0); now right).
  destruct (String.eqb n (event_name e)); auto.
  destruct h as [slot m|k]; auto.
  specialize (H n (BrowserHandler slot m) (or_introl eq_refl)). discriminate.
Qed.

Lemma remove_first_In x y l : In x (remove_first y l) -> In x l.
Proof.
  induction l as [|z r IH]; simpl; auto.
  destruct (registration_eqb z y); simpl; intuition.
Qed.

Lemma remove_registrations_In x hs : forall l,
  In x (remove_registrations hs l) -> In x l.
Proof.
  induction hs as [|y r IH]; intros l H; simpl in *; auto.
  eapply remove_first_In. eauto.
Qed.

Lemma close_no_browser_handler s :
  handlers_tracked s ->
  no_browser_handler (conn (world (state_of (Browser.close s)))).
Proof.
  intros [T R].
  assert (H : no_browser_handler (conn (world (unregistered s)))).
  { intros n h I.
    destruct (is_browser_handler h) eqn:O; auto.
    apply registrations_In in I. unfold unregistered in I. simpl in I.
    rewrite registrations_remove_registrations, T in I.
    specialize (R (n, h) O). lia. }
  rewrite close_unfold.
  destruct (conn_closed (conn (world s))); simpl; auto.
Qed.

Lemma step_no_browser_handler o s :
  no_browser_handler (conn (world s)) ->
  no_browser_handler (conn (world (step o s))).
Proof.
  unfold no_browser_handler. intros H.
  destruct o; simpl.
  - pose proof (emit_to_frame (conn_handlers (conn (world s))) e s) as F.
    unfold deliver. destruct F as (_ & _ & _ & A & _). now rewrite A.
  - rewrite close_unfold.
    destruct (conn_closed (conn (world s))); simpl;
      intros n h I; apply remove_registrations_In in I; eauto.
  - unfold Browser.onProcessClose. unfold_m. simpl. auto.
  - unfold Browser.createIncognitoBrowserContext. unfold_m. simpl. auto.
  - rewrite closeContext_unfold. simpl. auto.
  - unfold Browser.browserContexts. unfold_m. simpl. auto.
  - unfold Browser.targets. unfold_m. simpl. auto.
  - unfold Browser.newPage. unfold_m. simpl. auto.
  - auto.
  - auto.
  - unfold_m. simpl. intros n0 h I. apply in_app_or in I.
    destruct I as [I|[[= <- <-]|[]]]; eauto.
  - unfold_m. simpl. intros n0 h I. apply remove_first_In in I. eauto.
Qed.

Lemma run_ops_no_browser_handler ops : forall s,
  no_browser_handler (conn (world s)) ->
  no_browser_handler (conn (world (run_ops ops s))).
Proof.
  induction ops as [|o r IH]; intros s H; simpl; auto.
  apply IH. now apply step_no_browser_handler.
Qed.

(** X7.  Once [close()] has run, no protocol event reaches the Browser
    any more: whatever happened before the call and whatever happens
    after it, an event that the connection emits runs none of the
    Browser's handlers, has no effect and leaves the state as it is. *)
Theorem no_event_reaches_closed_browser opts name version w s0 before after e :
  no_browser_handler (conn w) ->
  constructed opts name version w s0 ->
  let s := run_ops after (state_of (Browser.close (run_ops before s0))) in
  deliver e s = (s, []).
Proof.
  intros N C s. unfold deliver. apply emit_to_inert.
  apply run_ops_no_browser_handler, close_no_browser_handler.
  apply run_ops_handlers_tracked.
  eapply constructed_handlers_tracked; eauto.
Qed.

Lemma no_event_reaches_closed_browser_witness :
  exists s0,
    constructed plain_options "" "" fresh_world s0 /\
    let s := run_ops [OpCreateIncognitoBrowserContext]
               (state_of (Browser.close
                  (run_ops [ OpDeliver (ContextCreated
                                          (mkInfo "top" None "about:blank")) ]
                     s0))) in
    deliver (ContextDestroyed (mkInfo "top" None "about:blank")) s = (s, []).
Proof.
  eexists. split; [reflexivity |].
  refine (no_event_reaches_closed_browser plain_options "" "" fresh_world _
            [ OpDeliver (ContextCreated (mkInfo "top" None "about:blank")) ]
            [OpCreateIncognitoBrowserContext]
            (ContextDestroyed (mkInfo "top" None "about:blank")) _ eq_refl).
  intros n h [].
Defined.

Lemma run_events_frame evs : forall s, same_frame s (run_events evs s).
Proof.
  induction evs as [|e r IH]; intros s; simpl.
  - apply same_frame_refl.
  - eapply same_frame_trans; [apply handle_frame | apply IH].
Qed.

(** X8.  On a Browser constructed on a connection that did not carry
    its listeners, every protocol event that the connection emits runs
    the Browser's handler for that event exactly once: the state and
    the effects are those of the handler, also after earlier events. *)
Theorem connection_event_runs_its_handler_once opts name version w s0 evs e :
  no_browser_handler (conn w) ->
  constructed opts name version w s0 ->
  let s := run_events evs s0 in
  deliver e s = (state_of (handle e s), effects_of (handle e s)).
Proof.
  intros N C s.
  destruct (constructed_facts _ _ _ _ _ C) as (_ & _ & _ & _ & _ & _ & H & _).
  destruct (run_events_frame evs s0) as (_ & _ & _ & A & _). fold s in A.
  unfold deliver. rewrite A, H.
  rewrite emit_to_app_inert by exact N.
  unfold state_of, effects_of.
  destruct e as [i|i|n|n]; simpl;
    match goal with
    | |- context [?f ?x s] =>
        lazymatch f with
        | Browser.onContextCreated => destruct (f x s) as [[r1 s1] t1]
        | Browser.onContextDestroyed => destruct (f x s) as [[r1 s1] t1]
        | Browser.onContextNavigation => destruct (f x s) as [[r1 s1] t1]
        end
    end; simpl; now rewrite app_nil_r.
Qed.

Lemma connection_event_runs_its_handler_once_witness :
  exists s0,
    constructed plain_options "" "" fresh_world s0 /\
    let e := ContextCreated (mkInfo "top" None "about:blank") in
    deliver e s0 = (state_of (handle e s0), effects_of (handle e s0)).
Proof.
  eexists. split; [reflexivity |].
  refine (connection_event_runs_its_handler_once plain_options "" ""
            fresh_world _ [] (ContextCreated (mkInfo "top" None "about:blank"))
            _ eq_refl).
  intros n h [].
Defined.

(** ** The end of the session *)

(** X9.  When the browser process exits, its listener disposes the
    connection and emits "disconnected"; [isConnected()] is false from
    then on, and a later [close()] takes the listeners off the
    connection and returns: it does not dispose again and never calls
    the close callback. *)
Theorem process_exit_then_close s :
  let s1 := state_of (Browser.onProcessClose s) in
  Browser.onProcessClose s = (Ok tt, s1, [EDispose; EDisconnected]) /\
  result_of (Browser.isConnected s1) = Ok false /\
  result_of (Browser.close s1) = Ok tt /\
  effects_of (Browser.close s1)
    = off_effects (p_connectionEventHandlers (browser s)).
Proof.
  intros s1. subst s1. rewrite close_unfold.
  unfold Browser.onProcessClose, Browser.isConnected. unfold_m. simpl.
  repeat split.
Qed.

(** X10.  [close()] sends no command to the remote end and leaves the
    Browser, its registry and its collection as they are; afterwards
    [isConnected()] is false.  It fails exactly when the connection was
    open and the close callback rejected, with the error of the
    callback, and the connection is disposed in that case too. *)
Theorem close_outcome s :
  commands (effects_of (Browser.close s)) = [] /\
  browser (state_of (Browser.close s)) = browser s /\
  heap (world (state_of (Browser.close s))) = heap (world s) /\
  result_of (Browser.isConnected (state_of (Browser.close s))) = Ok false /\
  forall e,
    result_of (Browser.close s) = Err e <->
    conn_closed (conn (world s)) = false /\
    p_closeCallback (browser s) = Some (Err e).
Proof.
  assert (O : forall hs, commands (off_effects hs) = []).
  { induction hs as [|[n h] r IH]; simpl; auto. }
  assert (A : forall t1 t2, commands (t1 ++ t2) = commands t1 ++ commands t2).
  { induction t1 as [|x r IH]; intros t2; simpl; auto.
    destruct x; simpl; auto. now rewrite IH. }
  rewrite close_unfold. unfold Browser.isConnected. unfold_m.
  destruct (conn_closed (conn (world s))) eqn:E; simpl.
  - rewrite O, E. repeat split; try discriminate.
    intros [H _]. discriminate.
  - rewrite A, O. simpl.
    destruct (p_closeCallback (browser s)) as [[[]|e']|]; simpl;
      repeat split; try discriminate; try congruence;
      try (intros [_ H]; congruence).
Qed.

(** ** Navigation *)

(** X11.  A navigation event (fragmentNavigated or navigationStarted)
    for a context that the connection does not know fails at the lookup
    and changes nothing.  For a known context it stores the URL of the
    event in the context object, leaving its id and parent and all other
    context objects as they are, never changes the registry, and emits
    "target changed" on the Browser and on the owning browser context
    exactly when a Target is registered for the id. *)
Theorem navigation_updates_url n s :
  let x := Browser.onContextNavigation n s in
  registry (state_of x) = registry s /\
  match Conn.lookup (nav_context n) (world s) with
  | None => x = (Err (Conn.does_not_exist (nav_context n)), s, [])
  | Some (r, o) =>
      result_of x = Ok tt /\
      Conn.lookup (nav_context n) (world (state_of x))
        = Some (r, mkBrowsingContext (bc_id o) (bc_parent o) (nav_url n)) /\
      (forall r', r' <> r ->
         read_object r' (heap (world (state_of x)))
           = read_object r' (heap (world s))) /\
      effects_of x =
        match JsMap.get (nav_context n) (registry s) with
        | Some t => [ EBrowserEmit TargetChanged t;
                      EBrowserContextEmit (t_browserContext t) TargetChanged t ]
        | None => []
        end
  end.
Proof.
  intros x. split; [apply onContextNavigation_registry |].
  subst x. unfold Browser.onContextNavigation. unfold_m. simpl.
  unfold Conn.lookup, registry.
  destruct (JsMap.get (nav_context n) (conn_index (conn (world s)))) as [r|]
    eqn:G; simpl; [|destruct s; reflexivity].
  destruct (read_object r (heap (world s))) as [o|] eqn:O; simpl;
    [|destruct s; reflexivity].
  destruct (JsMap.get (nav_context n) (p_targets (browser s))) as [t|]; simpl;
    unfold read_object, update_object in *; simpl;
    rewrite G, nth_error_list_update_same, O; simpl;
    (split; [reflexivity |]); (split; [reflexivity |]);
    (split; [|reflexivity]);
    intros r' N; apply nth_error_list_update_other; congruence.
Qed.

(** ** The commands of a session *)

Lemma commands_app t1 t2 : commands (t1 ++ t2) = commands t1 ++ commands t2.
Proof.
  induction t1 as [|x r IH]; simpl; auto.
  destruct x; simpl; auto. now rewrite IH.
Qed.

Lemma onContextCreated_no_command i s :
  commands (effects_of (Browser.onContextCreated i s)) = [].
Proof.
  unfold Browser.onContextCreated. unfold_m. simpl.
  break_all; auto.
Qed.

Lemma seed_no_command infos : forall s,
  commands (effects_of (for_each infos Browser.onContextCreated s)) = [].
Proof.
  induction infos as [|i r IH]; intros s; simpl; auto.
  pose proof (onContextCreated_no_command i s) as N.
  unfold bind, effects_of in *.
  destruct (Browser.onContextCreated i s) as [[[[]|e] s1] t1]; simpl in *; auto.
  specialize (IH s1).
  destruct (for_each r Browser.onContextCreated s1) as [[r2 s2] t2]. simpl in *.
  now rewrite commands_app, N, IH.
Qed.

Lemma constructor_effects opts name version w :
  exists b w1 t1,
    Browser.constructor opts name version w = (Ok b, w1, t1) /\
    commands t1 = [] /\
    reply_getTree (conn w1) = reply_getTree (conn w) /\
    conn_handlers (conn w1) = conn_handlers (conn w) ++ Browser.connectionEventHandlers /\
    identity b = (name, version, opt_process opts, opt_closeCallback opts,
                  opt_defaultViewport opts, p_defaultContext b).
Proof.
  unfold Browser.constructor. unfold_m.
  destruct (opt_process opts); simpl;
    do 3 eexists; (split; [reflexivity |]); simpl;
    rewrite <- !app_assoc; simpl; auto.
Qed.

(** X13.  When the tree fetch of [create] fails after a successful
    session.subscribe, no Browser is returned but the Browser that
    [create] had constructed stays wired to the connection: its four
    listeners are registered on the connection that [create] leaves
    behind. *)
Theorem failed_create_leaves_listeners opts w e :
  reply_session_subscribe (conn w) (chosen_events w) = Ok tt ->
  reply_getTree (conn w) = Err e ->
  result_of (Browser.create opts w) = Err e /\
  conn_handlers (conn (state_of (Browser.create opts w)))
    = conn_handlers (conn w) ++ Browser.connectionEventHandlers.
Proof.
  intros S G. rewrite create_unfold, S.
  destruct (constructor_effects opts (negotiated_name w) (negotiated_version w) w)
    as (b0 & w1 & t1 & -> & _ & R & H & _).
  rewrite getTree_unfold. simpl. rewrite R, G.
  unfold result_of, state_of. simpl. auto.
Qed.

Lemma failed_create_leaves_listeners_witness :
  let w := mkWorld
             (mkConnection "ws://127.0.0.1:9222/session" false [] JsMap.empty
                (Ok (mkCapabilities (Some "firefox") (Some "115.0")))
                (fun _ => Ok tt) (Err "no such frame"))
             (mkHeap [] [] 0) in
  result_of (Browser.create plain_options w) = Err "no such frame" /\
  conn_handlers (conn (state_of (Browser.create plain_options w)))
    = Browser.connectionEventHandlers.
Proof.
  intros w.
  exact (failed_create_leaves_listeners plain_options w "no such frame"
           eq_refl eq_refl).
Defined.

(** ** A Browser without browser contexts *)

(** X14.  A context-created event that arrives while the Browser
    Context collection is empty fails with "Missing browser contexts":
    no Target is registered and nothing is emitted, but the new context
    object is already in the connection's index under its id. *)
Theorem created_without_browser_contexts i s :
  collection s = [] ->
  let x := Browser.onContextCreated i s in
  result_of x = Err "Missing browser contexts" /\
  effects_of x = [] /\
  registry (state_of x) = registry s /\
  Conn.lookup (context i) (world (state_of x))
    = Some (length (h_objects (heap (world s))),
            mkBrowsingContext (context i) (parent i) (url i)).
Proof.
  intros K x.
  assert (L : at_last (collection s) = None) by now rewrite K.
  destruct (onContextCreated_missing i s L) as (R & G & E).
  fold x in R, G, E. repeat split; auto.
  subst x. unfold Browser.onContextCreated. unfold_m. simpl.
  unfold collection in L.
  change (contexts_at (p_contexts (browser s))
            (mkHeap (h_objects (heap (world s)) ++
                      [mkBrowsingContext (context i) (parent i) (url i)])
               (h_arrays (heap (world s))) (h_next_oid (heap (world s)))))
    with (contexts_at (p_contexts (browser s)) (heap (world s))).
  rewrite L. simpl. unfold Conn.lookup. simpl.
  rewrite get_set_same. unfold read_object. simpl.
  now rewrite nth_error_snoc.
Qed.

Lemma created_without_browser_contexts_witness :
  exists s0,
    constructed plain_options "" "" fresh_world s0 /\
    let s := state_of (Browser._closeContext (p_defaultContext (browser s0)) s0) in
    let i := mkInfo "tab" None "about:blank" in
    collection s = [] /\
    result_of (Browser.onContextCreated i s) = Err "Missing browser contexts" /\
    registry (state_of (Browser.onContextCreated i s)) = registry s.
Proof.
  eexists. split; [reflexivity |]. cbv zeta. split; [reflexivity |].
  match goal with
  | |- context [Browser.onContextCreated ?i ?s] =>
      destruct (created_without_browser_contexts i s eq_refl) as (R & _ & G & _)
  end.
  split; [exact R | exact G].
Defined.

(** ** What never changes *)

Lemma same_frame_identity s s' :
  same_frame s s' -> identity (browser s') = identity (browser s).
Proof.
  intros (A & _). rewrite <- A. destruct (browser s'); reflexivity.
Qed.

Lemma step_identity o s : identity (browser (step o s)) = identity (browser s).
Proof.
  destruct o; simpl.
  - unfold deliver. apply same_frame_identity, emit_to_frame.
  - rewrite close_unfold. destruct (conn_closed (conn (world s))); reflexivity.
  - unfold Browser.onProcessClose. unfold_m. reflexivity.
  - unfold Browser.createIncognitoBrowserContext. unfold_m. reflexivity.
  - rewrite closeContext_unfold. reflexivity.
  - unfold Browser.browserContexts. unfold_m. reflexivity.
  - unfold Browser.targets. unfold_m. reflexivity.
  - unfold Browser.newPage. unfold_m. reflexivity.
  - reflexivity.
  - reflexivity.
  - unfold_m. reflexivity.
  - unfold_m. reflexivity.
Qed.

Lemma run_ops_identity ops : forall s,
  identity (browser (run_ops ops s)) = identity (browser s).
Proof.
  induction ops as [|o r IH]; intros s; simpl; auto.
  now rewrite IH, step_identity.
Qed.

(** X15.  Whatever happens to a Browser after its construction,
    [version()] returns the name and the version it was constructed
    with, joined by "/", [process()] returns the process of the
    options, and [defaultBrowserContext()] returns the context the
    constructor made, which is marked as default; [newPage()] delegates
    to that context, also when further contexts exist or when it is no
    longer in the collection. *)
Theorem browser_identity_is_fixed opts name version w s0 ops :
  constructed opts name version w s0 ->
  let s := run_ops ops s0 in
  Browser.version s = (Ok (name ++ "/" ++ version)%string, s, []) /\
  Browser.process s = (Ok (opt_process opts), s, []) /\
  Browser.defaultBrowserContext s = (Ok (p_defaultContext (browser s0)), s, []) /\
  ctx_isDefault (p_defaultContext (browser s0)) = true /\
  Browser.newPage s = (Ok tt, s, [ENewPage (p_defaultContext (browser s0))]).
Proof.
  intros C s.
  pose proof (run_ops_identity ops s0) as I. fold s in I.
  assert (I0 : identity (browser s0) =
               (name, version, opt_process opts, opt_closeCallback opts,
                opt_defaultViewport opts, p_defaultContext (browser s0))).
  { unfold constructed, new_Browser in C.
    destruct (constructor_effects opts name version w)
      as (b & w1 & t1 & E & _ & _ & _ & Id).
    rewrite E in C. injection C as <-. exact Id. }
  rewrite I0 in I. unfold identity in I.
  injection I as N V P _ _ D.
  destruct (constructed_facts _ _ _ _ _ C) as (_ & _ & F & _).
  unfold Browser.version, Browser.process, Browser.defaultBrowserContext,
    Browser.newPage. unfold_m.
  rewrite N, V, P, D. repeat split; auto.
Qed.

Lemma browser_identity_is_fixed_witness :
  exists s0,
    constructed plain_options "Chrome" "114.0" fresh_world s0 /\
    let s := run_ops [ OpCreateIncognitoBrowserContext;
                       OpCloseContext (mkBrowserContext 0 None true);
                       OpClose ] s0 in
    result_of (Browser.version s) = Ok "Chrome/114.0" /\
    collection s = [mkBrowserContext 1 None false] /\
    effects_of (Browser.newPage s) = [ENewPage (mkBrowserContext 0 None true)].
Proof.
  eexists. split; [reflexivity |]. cbv zeta.
  match goal with
  | |- context [run_ops ?ops ?s] =>
      destruct (browser_identity_is_fixed plain_options "Chrome" "114.0"
                  fresh_world s ops eq_refl) as (V & _ & _ & _ & P)
  end.
  rewrite V, P. split; [reflexivity |]. split; reflexivity.
Defined.

(** ** What the lifecycle handlers emit *)

(** X16.  The registry keeps the order in which ids were first
    registered: a context-created event for an id that is registered
    replaces the target of the id in place, and one for a new id puts
    the id behind the others. *)
Theorem created_keeps_registry_order i s bc :
  at_last (collection s) = Some bc ->
  JsMap.keys (registry (state_of (Browser.onContextCreated i s))) =
  match JsMap.get (context i) (registry s) with
  | Some _ => JsMap.keys (registry s)
  | None => JsMap.keys (registry s) ++ [context i]
  end.
Proof.
  intros L. rewrite (onContextCreated_state i s bc L).
  destruct (JsMap.get (context i) (registry s)) eqn:G.
  - apply keys_set_present. congruence.
  - rewrite (set_absent _ _ _ G). unfold JsMap.keys. now rewrite map_app.
Qed.

Lemma created_keeps_registry_order_witness :
  exists s0,
    constructed plain_options "" "" fresh_world s0 /\
    let s := run_events [ ContextCreated (mkInfo "a" None "about:blank");
                          ContextCreated (mkInfo "b" None "about:blank") ] s0 in
    JsMap.keys (registry (state_of (Browser.onContextCreated
                                      (mkInfo "a" None "https://example.org/") s)))
      = ["a"; "b"].
Proof.
  eexists. split; [reflexivity |]. cbv zeta.
  match goal with
  | |- context [Browser.onContextCreated ?i ?s] =>
      exact (eq_trans
               (created_keeps_registry_order i s (mkBrowserContext 0 None true)
                  eq_refl)
               eq_refl)
  end.
Defined.

(** The world a context-created event leaves behind, whatever the
    outcome of the handler. *)
Lemma onContextCreated_world i s :
  world (state_of (Browser.onContextCreated i s)) =
  mkWorld
    (set_index
       (JsMap.set (context i) (length (h_objects (heap (world s))))
          (conn_index (conn (world s))))
       (conn (world s)))
    (mkHeap
       (h_objects (heap (world s)) ++
        [mkBrowsingContext (context i) (parent i) (url i)])
       (h_arrays (heap (world s))) (h_next_oid (heap (world s)))).
Proof.
  unfold Browser.onContextCreated. unfold_m. simpl.
  break_all; auto.
Qed.

(** X18.  A context-created event handled while the Browser has a
    browser context always registers the context with the connection
    and announces the new target, "target created" on the Browser and
    then on the owning browser context.  For a context with a parent it
    then looks up the top-level ancestor of the parent: when the
    connection resolves it, "created" is emitted on that context; when
    it does not, the handler fails at this point, with the target
    registered and announced. *)
Theorem created_announces_target i s bc :
  at_last (collection s) = Some bc ->
  let x := Browser.onContextCreated i s in
  let r := length (h_objects (heap (world s))) in
  let t := target_for i bc r in
  let announced :=
    [ EBrowserEmit TargetCreated t; EBrowserContextEmit bc TargetCreated t ] in
  Conn.lookup (context i) (world (state_of x))
    = Some (r, mkBrowsingContext (context i) (parent i) (url i)) /\
  JsMap.get (context i) (registry (state_of x)) = Some t /\
  match parent i with
  | Some p =>
      if truthy (Some p) then
        match Conn.top_level p (world (state_of x)) with
        | Ok top =>
            result_of x = Ok tt /\
            effects_of x = announced ++ [EBrowsingContextEmit top Created r]
        | Err e => result_of x = Err e /\ effects_of x = announced
        end
      else result_of x = Ok tt /\ effects_of x = announced
  | None => result_of x = Ok tt /\ effects_of x = announced
  end.
Proof.
  intros L x r t announced.
  assert (G : JsMap.get (context i) (registry (state_of x)) = Some t).
  { subst x. rewrite (onContextCreated_state i s bc L). apply get_set_same. }
  pose proof (onContextCreated_world i s) as W. fold x in W.
  split; [|split; [exact G |]]; clear G.
  - rewrite W. unfold Conn.lookup. simpl. rewrite get_set_same.
    unfold read_object. simpl. now rewrite nth_error_snoc.
  - rewrite W. clear W.
    subst x announced t r; unfold target_for;
      unfold Browser.onContextCreated; unfold_m; simpl;
      unfold collection in L;
      change (contexts_at (p_contexts (browser s))
                (mkHeap (h_objects (heap (world s)) ++
                          [mkBrowsingContext (context i) (parent i) (url i)])
                   (h_arrays (heap (world s))) (h_next_oid (heap (world s)))))
        with (contexts_at (p_contexts (browser s)) (heap (world s)));
      rewrite L; simpl.
    destruct (parent i) as [p|]; simpl; [|auto].
    destruct (negb (String.eqb p "")); simpl; [|auto].
    match goal with
    | |- context [Conn.top_level p ?w] =>
        destruct (Conn.top_level p w) as [top|e] eqn:T1
    end; simpl;
    match goal with
    | |- context [Conn.top_level p ?w] =>
        let T2 := fresh "T" in
        destruct (Conn.top_level p w) as [top'|e'] eqn:T2;
        pose proof (eq_trans (eq_sym T1) T2) as X;
        try discriminate X; injection X as <-
    end; simpl; auto.
Qed.

Lemma created_announces_target_witness :
  exists s0,
    constructed plain_options "" "" fresh_world s0 /\
    let i := mkInfo "frame" (Some "gone") "about:blank" in
    let t := mkTarget NestedTarget (p_defaultContext (browser s0)) 0 in
    result_of (Browser.onContextCreated i s0) = Err "Context gone does not exist" /\
    effects_of (Browser.onContextCreated i s0) =
      [ EBrowserEmit TargetCreated t;
        EBrowserContextEmit (p_defaultContext (browser s0)) TargetCreated t ] /\
    JsMap.get "frame" (registry (state_of (Browser.onContextCreated i s0)))
      = Some t.
Proof.
  eexists. split; [reflexivity |]. cbv zeta.
  match goal with
  | |- context [Browser.onContextCreated ?i ?s] =>
      destruct (created_announces_target i s _ eq_refl) as (_ & G & R & E)
  end.
  split; [exact R |]. split; [exact E | exact G].
Defined.

(** * Page targets, subscriptions and the default context *)

(** ** C6: page targets and nested targets *)

(** C6.  For every context-created event handled while the Browser has
    a browser context, the parent of the event being absent or the id of
    a context (an id is not the empty string): the Target that the
    handler puts into the registry under the id of the event belongs to
    the last browser context, is a page target exactly when the created
    context has no parent, and is a nested target exactly when it has
    one. *)
Theorem page_target_iff_no_parent i s bc :
  at_last (collection s) = Some bc ->
  parent i <> Some "" ->
  exists t,
    JsMap.get (context i) (registry (state_of (Browser.onContextCreated i s)))
      = Some t /\
    t_browserContext t = bc /\
    (t_kind t = PageTarget <-> parent i = None) /\
    (t_kind t = NestedTarget <-> exists p, parent i = Some p).
Proof.
  intros L N. rewrite (onContextCreated_state i s bc L), get_set_same.
  eexists. split; [reflexivity |]. simpl. split; [reflexivity |].
  destruct (parent i) as [p|]; simpl.
  - destruct (String.eqb p "") eqn:E; simpl.
    + apply String.eqb_eq in E. subst p. contradiction.
    + split; split; try discriminate; eauto.
  - split; split; auto; try discriminate.
    intros (p & H). discriminate.
Qed.

Lemma page_target_iff_no_parent_witness :
  exists s,
    constructed plain_options "" "" fresh_world s /\
    let top := mkInfo "top" None "about:blank" in
    let frame := mkInfo "frame" (Some "top") "about:blank" in
    let s1 := state_of (Browser.onContextCreated top s) in
    let s2 := state_of (Browser.onContextCreated frame s1) in
    option_map t_kind (JsMap.get "top" (registry s1)) = Some PageTarget /\
    exists t, JsMap.get "frame" (registry s2) = Some t /\ t_kind t = NestedTarget.
Proof.
  eexists. split; [reflexivity |]. cbv zeta. split; [reflexivity |].
  match goal with
  | |- context [Browser.onContextCreated ?i ?s] =>
      destruct (page_target_iff_no_parent i s _ eq_refl) as (t & G & _ & _ & N)
  end.
  - discriminate.
  - exists t. split; [exact G |]. apply N. eexists. reflexivity.
Defined.

(** ** C5: the subscription *)





(** ** C2: the default context stays in the collection *)

Lemma BrowserContext_close_default bc s :
  ctx_isDefault bc = true ->
  BrowserContext_close bc s = (Err "Default context cannot be closed!", s, []).
Proof.
  intros D. unfold BrowserContext_close. rewrite D. reflexivity.
Qed.

Lemma BrowserContext_close_keeps d bc s :
  same_context d bc = false ->
  In d (collection s) ->
  In d (collection (state_of (BrowserContext_close bc s))).
Proof.
  intros N I. unfold BrowserContext_close.
  destruct (ctx_isDefault bc).
  - exact I.
  - rewrite closeContext_collection. apply filter_In. split; [exact I |].
    now rewrite N.
Qed.

Lemma step_keeps_context d o s :
  contexts_allocated s ->
  spares d o ->
  In d (collection s) ->
  In d (collection (step o s)).
Proof.
  intros [l R] P I.
  assert (B : p_contexts (browser s) < length (h_arrays (heap (world s)))).
  { apply nth_error_Some. unfold read_array in R. now rewrite R. }
  destruct o; simpl in *.
  - unfold deliver.
    now rewrite (same_frame_collection _ _
                   (emit_to_frame (conn_handlers (conn (world s))) e s)).
  - now rewrite (proj1 (close_collection s)).
  - unfold Browser.onProcessClose. unfold_m. simpl. exact I.
  - rewrite createIncognito_collection by (exists l; exact R).
    apply in_or_app. now left.
  - rewrite closeContext_collection. apply filter_In. split; [exact I |].
    now rewrite P.
  - unfold Browser.browserContexts. unfold_m. simpl. exact I.
  - unfold Browser.targets. unfold_m.
    unfold collection, contexts_at, read_array in *. simpl.
    now rewrite nth_error_app1.
  - unfold Browser.newPage. unfold_m. simpl. exact I.
  - contradiction.
  - unfold collection, contexts_at, read_array, mutate_targets, update_array in *.
    simpl.
    destruct (Nat.eq_dec r (p_contexts (browser s))) as [->|N].
    + rewrite nth_error_list_update_same. rewrite R in *. simpl. exact I.
    + now rewrite nth_error_list_update_other.
  - unfold_m. simpl. exact I.
  - unfold_m. simpl. exact I.
Qed.

Lemma run_ops_keeps_context d ops : forall s,
  contexts_allocated s ->
  Forall (spares d) ops ->
  In d (collection s) ->
  In d (collection (run_ops ops s)).
Proof.
  induction ops as [|o r IH]; intros s A F I; simpl; auto.
  inversion F as [|? ? P F']; subst.
  apply IH; auto using step_contexts_allocated, step_keeps_context.
Qed.

(** C2.  The constructor puts exactly one browser context into the
    collection, the default one, and [defaultBrowserContext()] returns
    it.  Whatever is done with the Browser afterwards,
    [defaultBrowserContext()] still returns that context,
    [BrowserContext.close()] on it is refused and changes nothing,
    [Browser.close()] leaves the collection as it is, and
    [BrowserContext.close()] on any other context leaves the default
    context in the collection.  As long as nothing edits the array that
    [browserContexts()] hands out and [_closeContext] is reached only
    for other contexts, the default context is in the collection. *)
Theorem default_context_is_never_removed opts name version w s0 ops :
  constructed opts name version w s0 ->
  let d := p_defaultContext (browser s0) in
  let s := run_ops ops s0 in
  (collection s0 = [d] /\ ctx_isDefault d = true /\
   Browser.defaultBrowserContext s0 = (Ok d, s0, [])) /\
  Browser.defaultBrowserContext s = (Ok d, s, []) /\
  (exists e, BrowserContext_close d s = (Err e, s, [])) /\
  collection (state_of (Browser.close s)) = collection s /\
  (forall bc, same_context d bc = false ->
     In d (collection s) ->
     In d (collection (state_of (BrowserContext_close bc s)))) /\
  (Forall (spares d) ops -> In d (collection s)).
Proof.
  intros C d s.
  destruct (constructed_facts _ _ _ _ _ C) as (_ & K & D & _).
  assert (P : p_defaultContext (browser s) = d).
  { pose proof (run_ops_identity ops s0) as E. unfold identity in E.
    subst s d. congruence. }
  repeat split.
  - exact K.
  - exact D.
  - unfold Browser.defaultBrowserContext, gets. now rewrite P.
  - eexists. apply BrowserContext_close_default. exact D.
  - apply close_collection.
  - intros bc. apply BrowserContext_close_keeps.
  - intros F. apply run_ops_keeps_context; auto.
    + eapply constructed_contexts_allocated; eauto.
    + fold d in K. rewrite K. now left.
Qed.

Lemma default_context_is_never_removed_witness :
  exists s0,
    constructed plain_options "" "" fresh_world s0 /\
    let d := p_defaultContext (browser s0) in
    let incognito := mkBrowserContext 1 None false in
    let s := run_ops [OpCreateIncognitoBrowserContext] s0 in
    collection s = [d; incognito] /\
    collection (state_of (BrowserContext_close incognito s)) = [d] /\
    In d (collection s) /\
    exists e, BrowserContext_close d s = (Err e, s, []).
Proof.
  eexists. split; [reflexivity |]. cbv zeta.
  split; [reflexivity |]. split; [reflexivity |].
  match goal with
  | |- context [run_ops ?ops ?s0] =>
      destruct (default_context_is_never_removed plain_options "" "" fresh_world
                  s0 ops eq_refl) as (_ & _ & R & _ & _ & I)
  end.
  split; [|exact R].
  apply I. repeat constructor.
Defined.

(** * The calls of [connection.send] in Browser.ts *)

(** X12.  Browser.ts calls [connection.send] in three places, and
    [create] reaches them in this order: session.new, session.subscribe,
    browsingContext.getTree, each once.  When session.subscribe fails
    [create] sends nothing after it and returns the error, leaving the
    connection and the heap untouched.  (What the constructors of other
    classes send on their own, as BrowsingContext does for its CDP
    session, is not a call of Browser.ts and is not in this trace.) *)
Theorem create_reaches_its_sends_in_order opts w :
  let own := commands (effects_of (Browser.create opts w)) in
  match reply_session_subscribe (conn w) (chosen_events w) with
  | Err e =>
      own = [ SessionNew (opt_ignoreHTTPSErrors opts);
              SessionSubscribe (chosen_events w) ] /\
      result_of (Browser.create opts w) = Err e /\
      state_of (Browser.create opts w) = w
  | Ok _ =>
      own = [ SessionNew (opt_ignoreHTTPSErrors opts);
              SessionSubscribe (chosen_events w);
              BrowsingContextGetTree ] /\
      sent is_getTree own = 1
  end.
Proof.
  intros own. subst own. rewrite create_unfold.
  assert (N : commands (negotiation_effects opts w) =
              [ SessionNew (opt_ignoreHTTPSErrors opts);
                SessionSubscribe (chosen_events w) ]).
  { unfold negotiation_effects. simpl.
    destruct (reply_session_new (conn w)); reflexivity. }
  remember (negotiation_effects opts w) as ne eqn:NE. clear NE.
  destruct (reply_session_subscribe (conn w) (chosen_events w)) as [[]|e'].
  - destruct (constructor_effects opts (negotiated_name w) (negotiated_version w) w)
      as (b0 & w1 & t1 & -> & T1 & _).
    rewrite getTree_unfold. simpl.
    destruct (reply_getTree (conn w1)) as [infos|e1].
    + pose proof (seed_no_command infos (mkSt b0 w1)) as T2.
      unfold effects_of in *.
      destruct (for_each infos Browser.onContextCreated (mkSt b0 w1))
        as [[[[]|e2] s2] t2]; simpl in *;
        rewrite !commands_app, N, T1; simpl; rewrite T2; split; reflexivity.
    + unfold effects_of. simpl. rewrite !commands_app, N, T1.
      split; reflexivity.
  - unfold effects_of, result_of, state_of. simpl. auto.
Qed.

(** * [#onContextDestroyed] piece by piece *)

Lemma start_unfold i s :
  OnContextDestroyed.start i s =
  match Conn.lookup (context i) (world s) with
  | None => (Err (Conn.does_not_exist (context i)), s, [])
  | Some (ctx, _) =>
      match Conn.top_level (context i) (world s) with
      | Ok top =>
          (Ok (JsMap.get (context i) (registry s)), s,
           [EBrowsingContextEmit top Destroyed ctx])
      | Err e => (Err e, s, [])
      end
  end.
Proof.
  unfold OnContextDestroyed.start, registry. unfold_m.
  remember (Conn.lookup (context i)) as lk eqn:LK.
  remember (Conn.top_level (context i)) as tl eqn:TL.
  destruct s as [b w]. simpl.
  destruct (lk w) as [[r o]|]; [|reflexivity]. simpl.
  destruct (tl w); reflexivity.
Qed.

Lemma after_page_unfold target s :
  OnContextDestroyed.after_page target s =
  (Ok tt, s, match target with Some t => [EPageClose t] | None => [] end).
Proof. destruct target; reflexivity. Qed.

Lemma after_close_unfold i target s :
  OnContextDestroyed.after_close i target s =
  (Ok tt,
   mkSt (set_targets (JsMap.delete (context i) (registry s)) (browser s)) (world s),
   match target with
   | Some t => [ EBrowserEmit TargetDestroyed t;
                 EBrowserContextEmit (t_browserContext t) TargetDestroyed t ]
   | None => []
   end).
Proof.
  unfold OnContextDestroyed.after_close, registry. unfold_m.
  destruct target; reflexivity.
Qed.

(** Run without a break, the three pieces are the method. *)
Lemma onContextDestroyed_split i s :
  Browser.onContextDestroyed i s =
  (target <- OnContextDestroyed.start i ;;
   OnContextDestroyed.after_page target ;;;
   OnContextDestroyed.after_close i target) s.
Proof.
  unfold bind at 1 2. rewrite start_unfold.
  unfold Browser.onContextDestroyed, registry. unfold_m.
  remember (Conn.lookup (context i)) as lk eqn:LK.
  remember (Conn.top_level (context i)) as tl eqn:TL.
  destruct s as [b w]. simpl.
  destruct (lk w) as [[r o]|]; [|reflexivity]. simpl.
  destruct (tl w); [|reflexivity]. simpl.
  destruct (JsMap.get (context i) (p_targets b)); reflexivity.
Qed.

(** X17.  A context-destroyed event for an id with a registered Target
    whose top-level ancestor the connection resolves is handled in three
    pieces.  Up to the first [await] the handler emits "destroyed" on
    the top-level context and reads the Target; the state is as before.
    Between the two [await]s it asks the page of the Target to close;
    the state is still as before, so the Target is registered while the
    close is pending.  After the second [await] it takes the id out of
    the registry and emits "target destroyed" on the Browser and then on
    the owning browser context; the other entries, the collection and
    the connection are as before.  Run without a break the pieces are
    the handler, with these four effects in this order. *)
Theorem destroyed_with_target i s t top :
  JsMap.get (context i) (registry s) = Some t ->
  Conn.top_level (context i) (world s) = Ok top ->
  exists ctx s',
    JsMap.get (context i) (conn_index (conn (world s))) = Some ctx /\
    OnContextDestroyed.start i s =
      (Ok (Some t), s, [EBrowsingContextEmit top Destroyed ctx]) /\
    OnContextDestroyed.after_page (Some t) s = (Ok tt, s, [EPageClose t]) /\
    OnContextDestroyed.after_close i (Some t) s =
      (Ok tt, s',
       [ EBrowserEmit TargetDestroyed t;
         EBrowserContextEmit (t_browserContext t) TargetDestroyed t ]) /\
    registry s' = JsMap.delete (context i) (registry s) /\
    collection s' = collection s /\
    world s' = world s /\
    Browser.onContextDestroyed i s =
      (Ok tt, s',
       [ EBrowsingContextEmit top Destroyed ctx;
         EPageClose t;
         EBrowserEmit TargetDestroyed t;
         EBrowserContextEmit (t_browserContext t) TargetDestroyed t ]).
Proof.
  intros G T.
  assert (L : exists ctx o,
             JsMap.get (context i) (conn_index (conn (world s))) = Some ctx /\
             Conn.lookup (context i) (world s) = Some (ctx, o)).
  { pose proof T as T'. unfold Conn.top_level in T'. simpl in T'.
    unfold Conn.lookup in *.
    destruct (JsMap.get (context i) (conn_index (conn (world s)))) as [r|];
      [|discriminate].
    destruct (read_object r (heap (world s))) as [o|]; [|discriminate].
    eauto. }
  destruct L as (ctx & o & I & L).
  exists ctx. eexists.
  split; [exact I |].
  assert (S0 : OnContextDestroyed.start i s =
               (Ok (Some t), s, [EBrowsingContextEmit top Destroyed ctx])).
  { rewrite start_unfold, L, T, G. reflexivity. }
  split; [exact S0 |].
  split; [reflexivity |].
  split; [apply after_close_unfold |].
  split; [reflexivity |]. split; [reflexivity |]. split; [reflexivity |].
  rewrite onContextDestroyed_split. unfold bind.
  rewrite S0, after_page_unfold, after_close_unfold. reflexivity.
Qed.

Lemma destroyed_with_target_witness :
  exists s0,
    constructed plain_options "" "" fresh_world s0 /\
    let top := mkInfo "top" None "about:blank" in
    let frame := mkInfo "frame" (Some "top") "about:blank" in
    let s := run_events [ContextCreated top; ContextCreated frame] s0 in
    let t := mkTarget NestedTarget (p_defaultContext (browser s0)) 1 in
    OnContextDestroyed.start frame s =
      (Ok (Some t), s, [EBrowsingContextEmit 0 Destroyed 1]) /\
    JsMap.keys (registry (state_of (OnContextDestroyed.after_page (Some t) s)))
      = ["top"; "frame"] /\
    JsMap.keys (registry (state_of (OnContextDestroyed.after_close frame (Some t) s)))
      = ["top"] /\
    effects_of (Browser.onContextDestroyed frame s) =
      [ EBrowsingContextEmit 0 Destroyed 1;
        EPageClose t;
        EBrowserEmit TargetDestroyed t;
        EBrowserContextEmit (p_defaultContext (browser s0)) TargetDestroyed t ].
Proof.
  eexists. split; [reflexivity |]. cbv zeta.
  match goal with
  | |- context [Browser.onContextDestroyed ?i ?s] =>
      destruct (destroyed_with_target i s _ _ eq_refl eq_refl)
        as (ctx & s' & I & S0 & P & C & R & _ & _ & E)
  end.
  vm_compute in I. injection I as <-.
  split; [exact S0 |].
  split; [exact (f_equal (fun x => JsMap.keys (registry (state_of x))) P) |].
  split; [exact (eq_trans (f_equal (fun x => JsMap.keys (registry (state_of x))) C)
                   (eq_trans (f_equal JsMap.keys R) eq_refl)) |].
  exact (f_equal effects_of E).
Defined.

(** * The registry along the schedules of the event loop *)

Lemma start_state i s : state_of (OnContextDestroyed.start i s) = s.
Proof.
  rewrite start_unfold.
  destruct (Conn.lookup (context i) (world s)) as [[r o]|]; [|reflexivity].
  destruct (Conn.top_level (context i) (world s)); reflexivity.
Qed.

Lemma arrive_destroyed i x :
  arrive (ContextDestroyed i) x =
  mkSys (sys_state x)
    (if is_ok (result_of (OnContextDestroyed.start i (sys_state x)))
     then sys_suspended x ++
          [mkSuspended i (JsMap.get (context i) (registry (sys_state x)))
             AwaitingPage]
     else sys_suspended x).
Proof.
  unfold arrive. rewrite start_unfold.
  destruct (Conn.lookup (context i) (world (sys_state x))) as [[r o]|];
    [|reflexivity].
  destruct (Conn.top_level (context i) (world (sys_state x))); reflexivity.
Qed.

Lemma resume_unfold k x :
  resume k x =
  match nth_error (sys_suspended x) k with
  | None => x
  | Some su =>
      match sus_phase su with
      | AwaitingPage =>
          mkSys (sys_state x)
            (list_update (sys_suspended x) k
               (fun u => mkSuspended (sus_event u) (sus_target u) AwaitingClose))
      | AwaitingClose =>
          mkSys
            (mkSt (set_targets
                     (JsMap.delete (context (sus_event su))
                        (registry (sys_state x)))
                     (browser (sys_state x)))
               (world (sys_state x)))
            (remove_nth k (sys_suspended x))
      end
  end.
Proof.
  unfold resume.
  destruct (nth_error (sys_suspended x) k) as [su|]; [|reflexivity].
  destruct (sus_phase su).
  - now rewrite after_page_unfold.
  - now rewrite after_close_unfold.
Qed.

Lemma existsb_list_update {A} (p : A -> bool) (f : A -> A) :
  (forall u, p (f u) = p u) ->
  forall l k, existsb p (list_update l k f) = existsb p l.
Proof.
  intros P. induction l as [|x r IH]; intros [|k]; simpl; auto.
  - now rewrite P.
  - now rewrite IH.
Qed.

Lemma existsb_remove_nth {A} (p : A -> bool) : forall (l : list A) k su,
  nth_error l k = Some su ->
  existsb p l = p su || existsb p (remove_nth k l).
Proof.
  induction l as [|x r IH]; intros [|k] su H; simpl in H; try discriminate.
  - injection H as ->. reflexivity.
  - unfold remove_nth in *. simpl. rewrite (IH k su H).
    destruct (p x), (p su); reflexivity.
Qed.

Lemma live_from_step b a r id :
  live_from b (arrivals (a :: r)) id =
  live_from (live_from b (arrivals [a]) id) (arrivals r) id.
Proof. destruct a as [[]|]; reflexivity. Qed.

Lemma suspended_for_resume k x id :
  suspended_for id (resume k x) =
  match nth_error (sys_suspended x) k with
  | Some su =>
      match sus_phase su with
      | AwaitingPage => suspended_for id x
      | AwaitingClose =>
          existsb (fun su => String.eqb (context (sus_event su)) id)
            (remove_nth k (sys_suspended x))
      end
  | None => suspended_for id x
  end.
Proof.
  rewrite resume_unfold. unfold suspended_for.
  destruct (nth_error (sys_suspended x) k) as [su|]; [|reflexivity].
  destruct (sus_phase su); simpl; [|reflexivity].
  now apply existsb_list_update.
Qed.

(** One action keeps the collection non-empty and at most one entry
    under every id. *)
Lemma act_bounded a x :
  at_last (collection (sys_state x)) <> None ->
  (forall id, JsMap.entries id (registry (sys_state x)) <= 1) ->
  at_last (collection (sys_state (act a x))) <> None /\
  (forall id, JsMap.entries id (registry (sys_state (act a x))) <= 1).
Proof.
  intros NE LE. destruct a as [e|k]; cbn [act].
  - destruct e as [i|i|n|n];
      try (unfold arrive; cbn [sys_state]; rewrite handle_collection;
           split; [exact NE |]; intros id; now apply handle_entries_le).
    rewrite arrive_destroyed. cbn [sys_state]. auto.
  - rewrite resume_unfold.
    destruct (nth_error (sys_suspended x) k) as [su|]; [|auto].
    destruct (sus_phase su); simpl; [auto |].
    split; [exact NE |]. intros id. unfold registry at 1. simpl.
    destruct (String.eqb (context (sus_event su)) id) eqn:E.
    + apply String.eqb_eq in E. subst id. rewrite entries_delete_same. lia.
    + apply String.eqb_neq in E. rewrite entries_delete_other by assumption.
      apply LE.
Qed.

Lemma run_schedule_bounded sched : forall x,
  at_last (collection (sys_state x)) <> None ->
  (forall id, JsMap.entries id (registry (sys_state x)) <= 1) ->
  forall id, JsMap.entries id (registry (sys_state (run_schedule sched x))) <= 1.
Proof.
  induction sched as [|a r IH]; intros x NE LE; simpl; auto.
  destruct (act_bounded a x NE LE) as (NE' & LE'). now apply IH.
Qed.

(** An id whose last event is a created one keeps its entry, as long as
    no created event arrives while a destroyed handler for the id is
    suspended. *)
Lemma act_live a x id b :
  at_last (collection (sys_state x)) <> None ->
  JsMap.entries id (registry (sys_state x)) <= 1 ->
  no_overlap [a] x = true ->
  (b = true ->
   JsMap.entries id (registry (sys_state x)) = 1 /\ suspended_for id x = false) ->
  live_from b (arrivals [a]) id = true ->
  JsMap.entries id (registry (sys_state (act a x))) = 1 /\
  suspended_for id (act a x) = false.
Proof.
  intros NE LE NO LI B'. destruct a as [e|k]; cbn [act arrivals live_from no_overlap lookups_succeed] in *.
  - destruct e as [i|i|n|n]; cbn [act arrivals live_from no_overlap lookups_succeed] in *.
    + pose proof (handle_entries (ContextCreated i) (sys_state x) id NE LE) as H.
      simpl in H. unfold arrive, suspended_for. cbn [sys_state sys_suspended handle].
      destruct (String.eqb (context i) id) eqn:E.
      * apply String.eqb_eq in E. subst id. split; [exact H |].
        rewrite andb_true_r in NO. now apply negb_true_iff in NO.
      * rewrite H. now apply LI.
    + rewrite arrive_destroyed. unfold suspended_for. cbn [sys_state sys_suspended].
      destruct (String.eqb (context i) id) eqn:E; [discriminate |].
      destruct (LI B') as (L1 & L2). split; [exact L1 |].
      destruct (is_ok _); [|exact L2].
      rewrite existsb_app. unfold suspended_for in L2. rewrite L2. simpl.
      now rewrite E.
    + unfold arrive, suspended_for. cbn [sys_state sys_suspended handle].
      rewrite onContextNavigation_registry. now apply LI.
    + unfold arrive, suspended_for. cbn [sys_state sys_suspended handle].
      rewrite onContextNavigation_registry. now apply LI.
  - destruct (LI B') as (L1 & L2).
    rewrite suspended_for_resume, resume_unfold.
    destruct (nth_error (sys_suspended x) k) as [su|] eqn:N; [|auto].
    destruct (sus_phase su); simpl; [auto |].
    unfold suspended_for in L2.
    rewrite (existsb_remove_nth _ _ _ _ N) in L2.
    apply orb_false_iff in L2. destruct L2 as (E & R).
    split; [|exact R]. unfold registry at 1. simpl.
    apply String.eqb_neq in E. now rewrite entries_delete_other.
Qed.

(** An id whose last event is not a created one has no entry or a
    destroyed handler on its way, as long as the destroyed events that
    meet a Target get past the lookups. *)
Lemma act_dead a x id b :
  at_last (collection (sys_state x)) <> None ->
  JsMap.entries id (registry (sys_state x)) <= 1 ->
  lookups_succeed [a] x = true ->
  (b = false ->
   JsMap.entries id (registry (sys_state x)) = 0 \/ suspended_for id x = true) ->
  live_from b (arrivals [a]) id = false ->
  JsMap.entries id (registry (sys_state (act a x))) = 0 \/
  suspended_for id (act a x) = true.
Proof.
  intros NE LE LS DI B'. destruct a as [e|k]; cbn [act arrivals live_from no_overlap lookups_succeed] in *.
  - destruct e as [i|i|n|n]; cbn [act arrivals live_from no_overlap lookups_succeed] in *.
    + pose proof (handle_entries (ContextCreated i) (sys_state x) id NE LE) as H.
      simpl in H. unfold arrive, suspended_for. cbn [sys_state sys_suspended handle].
      destruct (String.eqb (context i) id) eqn:E; [discriminate |].
      rewrite H. now apply DI.
    + rewrite arrive_destroyed. unfold suspended_for. cbn [sys_state sys_suspended].
      destruct (String.eqb (context i) id) eqn:E.
      * apply String.eqb_eq in E. subst id.
        rewrite andb_true_r in LS.
        destruct (is_ok _).
        -- right. rewrite existsb_app. simpl. rewrite String.eqb_refl.
           now rewrite orb_true_r.
        -- simpl in LS.
           destruct (JsMap.get (context i) (registry (sys_state x))) eqn:G;
             [discriminate |].
           left. now apply get_none_entries.
      * destruct (DI B') as [D|D]; [now left | right].
        destruct (is_ok _); [|exact D].
        rewrite existsb_app. unfold suspended_for in D. now rewrite D.
    + unfold arrive, suspended_for. cbn [sys_state sys_suspended handle].
      rewrite onContextNavigation_registry. now apply DI.
    + unfold arrive, suspended_for. cbn [sys_state sys_suspended handle].
      rewrite onContextNavigation_registry. now apply DI.
  - rewrite suspended_for_resume, resume_unfold.
    destruct (nth_error (sys_suspended x) k) as [su|] eqn:N; [|auto].
    destruct (sus_phase su); simpl; [auto |].
    unfold registry at 1. simpl.
    destruct (String.eqb (context (sus_event su)) id) eqn:E.
    + apply String.eqb_eq in E. subst id. left. apply entries_delete_same.
    + destruct (DI B') as [D|D].
      * left. apply String.eqb_neq in E. now rewrite entries_delete_other.
      * right. unfold suspended_for in D.
        rewrite (existsb_remove_nth _ _ _ _ N) in D. simpl in D.
        now rewrite E in D.
Qed.

Lemma no_overlap_cons a r x :
  no_overlap (a :: r) x = no_overlap [a] x && no_overlap r (act a x).
Proof. simpl. now rewrite andb_true_r. Qed.

Lemma lookups_succeed_cons a r x :
  lookups_succeed (a :: r) x = lookups_succeed [a] x && lookups_succeed r (act a x).
Proof. simpl. now rewrite andb_true_r. Qed.

Lemma run_schedule_live id sched : forall x b,
  at_last (collection (sys_state x)) <> None ->
  (forall id, JsMap.entries id (registry (sys_state x)) <= 1) ->
  no_overlap sched x = true ->
  (b = true ->
   JsMap.entries id (registry (sys_state x)) = 1 /\ suspended_for id x = false) ->
  live_from b (arrivals sched) id = true ->
  JsMap.entries id (registry (sys_state (run_schedule sched x))) = 1 /\
  suspended_for id (run_schedule sched x) = false.
Proof.
  induction sched as [|a r IH]; intros x b NE LE NO LI B'.
  - simpl in *. now apply LI.
  - rewrite no_overlap_cons in NO. apply andb_true_iff in NO.
    destruct NO as (NO1 & NO2).
    rewrite live_from_step in B'.
    destruct (act_bounded a x NE LE) as (NE' & LE').
    simpl. apply (IH (act a x) (live_from b (arrivals [a]) id)); auto.
    intros B1. now apply (act_live a x id b).
Qed.

Lemma run_schedule_dead id sched : forall x b,
  at_last (collection (sys_state x)) <> None ->
  (forall id, JsMap.entries id (registry (sys_state x)) <= 1) ->
  lookups_succeed sched x = true ->
  (b = false ->
   JsMap.entries id (registry (sys_state x)) = 0 \/ suspended_for id x = true) ->
  live_from b (arrivals sched) id = false ->
  JsMap.entries id (registry (sys_state (run_schedule sched x))) = 0 \/
  suspended_for id (run_schedule sched x) = true.
Proof.
  induction sched as [|a r IH]; intros x b NE LE LS DI B'.
  - simpl in *. now apply DI.
  - rewrite lookups_succeed_cons in LS. apply andb_true_iff in LS.
    destruct LS as (LS1 & LS2).
    rewrite live_from_step in B'.
    destruct (act_bounded a x NE LE) as (NE' & LE').
    simpl. apply (IH (act a x) (live_from b (arrivals [a]) id)); auto.
    intros B1. now apply (act_dead a x id b).
Qed.

Lemma arrive_resume_resume i s :
  resume 0 (resume 0 (arrive (ContextDestroyed i) (mkSys s []))) =
  mkSys (state_of (Browser.onContextDestroyed i s)) [].
Proof.
  rewrite arrive_destroyed, onContextDestroyed_split. unfold bind.
  cbn [sys_state sys_suspended app].
  pose proof (start_state i s) as S1.
  destruct (OnContextDestroyed.start i s) as [[[t|e] s1] t1] eqn:S;
    unfold state_of in S1; simpl in S1; subst s1.
  - assert (T : t = JsMap.get (context i) (registry s)).
    { rewrite start_unfold in S.
      destruct (Conn.lookup (context i) (world s)) as [[r o]|];
        [|discriminate].
      destruct (Conn.top_level (context i) (world s)); [|discriminate].
      congruence. }
    rewrite <- T. cbn [result_of is_ok fst].
    rewrite resume_unfold. cbn [sys_suspended sys_state nth_error sus_phase list_update].
    rewrite resume_unfold. cbn [sys_suspended sys_state nth_error sus_phase
                                 sus_event sus_target].
    rewrite after_page_unfold, after_close_unfold. reflexivity.
  - reflexivity.
Qed.

(** Handling every event to its end before the next one arrives is
    [run_events]. *)
Lemma one_by_one_run_events evs : forall s,
  run_schedule (one_by_one evs) (mkSys s []) = mkSys (run_events evs s) [].
Proof.
  induction evs as [|e r IH]; intros s; [reflexivity |].
  cbn [one_by_one run_schedule run_events act].
  destruct e as [i|i|n|n]; try (cbn; apply IH).
  rewrite arrive_resume_resume. apply IH.
Qed.

(** ** Events that follow the protocol *)

Lemma walks_to_ext w w' :
  (forall y r o, Conn.lookup y w = Some (r, o) ->
     exists o', Conn.lookup y w' = Some (r, o') /\ bc_parent o' = bc_parent o) ->
  forall id k top, walks_to w id k top -> walks_to w' id k top.
Proof.
  intros X id k top W. induction W as [id r o L T|id r o p k top L P T W IH].
  - destruct (X _ _ _ L) as (o' & L' & E).
    apply (walks_to_root w' id r o' L'). now rewrite E.
  - destruct (X _ _ _ L) as (o' & L' & E).
    apply (walks_to_parent w' id r o' p k top L'); auto. now rewrite E.
Qed.

Lemma walks_to_resolves w id k top :
  walks_to w id k top ->
  (exists x, Conn.lookup id w = Some x) /\ Conn.top_level id w = Ok top.
Proof.
  intros W. split.
  - inversion W; eauto.
  - apply (top_level_fuel_enough w k).
    now apply (walks_top_level_from w id k top W).
Qed.

Lemma onContextCreated_lookup i s :
  JsMap.get (context i) (conn_index (conn (world s))) = None ->
  let w' := world (state_of (Browser.onContextCreated i s)) in
  Conn.lookup (context i) w' =
    Some (length (h_objects (heap (world s))),
          mkBrowsingContext (context i) (parent i) (url i)) /\
  (forall y, y <> context i ->
     JsMap.get y (conn_index (conn w')) = JsMap.get y (conn_index (conn (world s)))) /\
  (forall y r o, Conn.lookup y (world s) = Some (r, o) ->
     Conn.lookup y w' = Some (r, o)).
Proof.
  intros F w'. subst w'. rewrite onContextCreated_world.
  unfold Conn.lookup, read_object. simpl. split; [|split].
  - now rewrite get_set_same, nth_error_snoc.
  - intros y N. now apply get_set_other.
  - intros y r o.
    destruct (String.eqb y (context i)) eqn:E.
    + apply String.eqb_eq in E. subst y. now rewrite F.
    + apply String.eqb_neq in E. rewrite get_set_other by congruence.
      destruct (JsMap.get y (conn_index (conn (world s)))) as [r'|];
        [|discriminate].
      destruct (nth_error (h_objects (heap (world s))) r') as [o'|] eqn:N;
        [|discriminate].
      intros H. injection H as -> ->.
      rewrite nth_error_app1; [now rewrite N |].
      apply nth_error_Some. now rewrite N.
Qed.

Lemma onContextNavigation_lookup n s :
  let w' := world (state_of (Browser.onContextNavigation n s)) in
  conn_index (conn w') = conn_index (conn (world s)) /\
  (forall y r o, Conn.lookup y (world s) = Some (r, o) ->
     exists o', Conn.lookup y w' = Some (r, o') /\ bc_parent o' = bc_parent o).
Proof.
  unfold Browser.onContextNavigation. unfold_m.
  remember (Conn.lookup (nav_context n)) as lk eqn:LK.
  destruct s as [b [c h]]. simpl.
  destruct (lk (mkWorld c h)) as [[r0 o0]|]; simpl.
  - assert (W : forall y r o,
               Conn.lookup y (mkWorld c h) = Some (r, o) ->
               exists o',
                 Conn.lookup y
                   (mkWorld c
                      (update_object r0
                         (fun o => mkBrowsingContext (bc_id o) (bc_parent o)
                                     (nav_url n)) h))
                   = Some (r, o') /\ bc_parent o' = bc_parent o).
    { intros y r o. unfold Conn.lookup, read_object, update_object. simpl.
      destruct (JsMap.get y (conn_index c)) as [r'|]; [|discriminate].
      destruct (nth_error (h_objects h) r') as [o'|] eqn:N; [|discriminate].
      intros H. injection H as -> ->.
      destruct (Nat.eq_dec r r0) as [->|D].
      - rewrite nth_error_list_update_same, N. simpl. eauto.
      - rewrite nth_error_list_update_other by congruence. rewrite N. eauto. }
    destruct (JsMap.get (nav_context n) (p_targets b)); simpl; split; auto.
  - split; eauto.
Qed.

Lemma mem_cons id x l : mem id (x :: l) = String.eqb id x || mem id l.
Proof. reflexivity. Qed.

Lemma conformant_step known a r :
  conformant known (arrivals (a :: r)) =
  conformant known (arrivals [a]) && conformant (known_after known a) (arrivals r).
Proof.
  destruct a as [[i|i|n|n]|k]; simpl; auto.
  now rewrite andb_true_r.
Qed.

Lemma get_delete_none {V} k k' (m : JsMap.t V) :
  JsMap.get k m = None -> JsMap.get k (JsMap.delete k' m) = None.
Proof.
  intros G. destruct (String.eqb k' k) eqn:E.
  - apply String.eqb_eq in E. subst k'. apply get_delete_same.
  - apply String.eqb_neq in E. now rewrite get_delete_other.
Qed.

Lemma act_resolved a x known :
  resolved known x ->
  conformant known (arrivals [a]) = true ->
  resolved (known_after known a) (act a x) /\
  no_overlap [a] x = true /\
  lookups_succeed [a] x = true.
Proof.
  intros (RI & RW & RR & RS) C.
  destruct a as [[i|i|n|n]|k];
    cbn [act known_after arrivals conformant no_overlap lookups_succeed] in *.
  - (* created *)
    rewrite andb_true_r in C. apply andb_true_iff in C. destruct C as (F & P).
    apply negb_true_iff in F.
    pose proof (RI _ F) as FI.
    destruct (onContextCreated_lookup i (sys_state x) FI) as (LN & LI & LO).
    assert (EXT : forall id k top,
               walks_to (world (sys_state x)) id k top ->
               walks_to (world (state_of (Browser.onContextCreated i (sys_state x))))
                 id k top).
    { apply walks_to_ext. intros y r o L. exists o. split; auto. }
    split; [|split].
    + unfold resolved, arrive, suspended_for.
      cbn [sys_state sys_suspended handle]. repeat split.
      * intros id M. rewrite mem_cons in M. apply orb_false_iff in M.
        destruct M as (N & M). apply String.eqb_neq in N.
        rewrite LI by assumption. now apply RI.
      * intros id M. rewrite mem_cons in M.
        destruct (String.eqb id (context i)) eqn:E.
        -- apply String.eqb_eq in E. subst id.
           destruct (truthy (parent i)) eqn:T.
           ++ destruct (parent i) as [p|] eqn:PA; [|discriminate T].
              rewrite T in P.
              destruct (RW _ P) as (k & top & W).
              exists (S k), top.
              apply (walks_to_parent _ (context i) _ _ p k top LN);
                [reflexivity | exact T | now apply EXT].
           ++ eexists 1, _. apply (walks_to_root _ (context i) _ _ LN).
              exact T.
        -- simpl in M. destruct (RW _ M) as (k & top & W).
           exists k, top. now apply EXT.
      * intros id M. rewrite mem_cons in M. apply orb_false_iff in M.
        destruct M as (N & M). apply String.eqb_neq in N.
        destruct (at_last (collection (sys_state x))) as [bc|] eqn:L.
        -- rewrite (onContextCreated_state i _ bc L).
           rewrite get_set_other by congruence. now apply RR.
        -- destruct (onContextCreated_missing i _ L) as (_ & -> & _).
           now apply RR.
      * intros id M. rewrite mem_cons in M. apply orb_false_iff in M.
        destruct M as (N & M). now apply RS.
    + rewrite andb_true_r. apply negb_true_iff. now apply RS.
    + reflexivity.
  - (* destroyed *)
    rewrite arrive_destroyed. split; [|split].
    + unfold resolved, suspended_for. cbn [sys_state sys_suspended].
      repeat split; auto.
      intros id M.
      destruct (is_ok (result_of (OnContextDestroyed.start i (sys_state x))))
        eqn:O; [|now apply RS].
      rewrite existsb_app. pose proof (RS _ M) as Q. unfold suspended_for in Q.
      rewrite Q. simpl. rewrite orb_false_r.
      apply String.eqb_neq. intros E. rewrite <- E in M.
      rewrite start_unfold in O. unfold Conn.lookup in O.
      rewrite (RI _ M) in O. discriminate.
    + reflexivity.
    + rewrite andb_true_r.
      destruct (mem (context i) known) eqn:M.
      * destruct (RW _ M) as (k & top & W).
        destruct (walks_to_resolves _ _ _ _ W) as ([[r o] L] & T).
        rewrite start_unfold, L, T. reflexivity.
      * rewrite (RR _ M). apply orb_true_r.
  - (* fragment navigated *)
    destruct (onContextNavigation_lookup n (sys_state x)) as (I & L).
    split; [|split; reflexivity].
    unfold resolved, arrive, suspended_for. cbn [sys_state sys_suspended handle].
    repeat split.
    + intros id M. rewrite I. now apply RI.
    + intros id M. destruct (RW _ M) as (k & top & W). exists k, top.
      revert W. now apply walks_to_ext.
    + intros id M. rewrite onContextNavigation_registry. now apply RR.
    + exact RS.
  - (* navigation started *)
    destruct (onContextNavigation_lookup n (sys_state x)) as (I & L).
    split; [|split; reflexivity].
    unfold resolved, arrive, suspended_for. cbn [sys_state sys_suspended handle].
    repeat split.
    + intros id M. rewrite I. now apply RI.
    + intros id M. destruct (RW _ M) as (k & top & W). exists k, top.
      revert W. now apply walks_to_ext.
    + intros id M. rewrite onContextNavigation_registry. now apply RR.
    + exact RS.
  - (* a suspended handler goes on *)
    split; [|split; reflexivity].
    rewrite resume_unfold.
    destruct (nth_error (sys_suspended x) k) as [su|] eqn:N;
      [|repeat split; auto].
    destruct (sus_phase su).
    + unfold resolved, suspended_for. cbn [sys_state sys_suspended].
      repeat split; auto.
      intros id M. rewrite existsb_list_update by reflexivity. now apply RS.
    + unfold resolved, suspended_for. cbn [sys_state sys_suspended].
      repeat split; auto.
      * intros id M. unfold registry at 1. simpl.
        apply get_delete_none. now apply RR.
      * intros id M. pose proof (RS _ M) as Q. unfold suspended_for in Q.
        rewrite (existsb_remove_nth _ _ _ _ N) in Q.
        now apply orb_false_iff in Q.
Qed.

Lemma conformant_orderly sched : forall known x,
  resolved known x ->
  conformant known (arrivals sched) = true ->
  no_overlap sched x = true /\ lookups_succeed sched x = true.
Proof.
  induction sched as [|a r IH]; intros known x R C; [split; reflexivity |].
  rewrite conformant_step in C. apply andb_true_iff in C. destruct C as (C1 & C2).
  destruct (act_resolved a x known R C1) as (R' & NO & LS).
  destruct (IH _ _ R' C2) as (NO' & LS').
  rewrite no_overlap_cons, lookups_succeed_cons, NO, LS, NO', LS'. auto.
Qed.

(** ** C1: the registry and the live browsing contexts, handler by handler *)

Lemma constructed_index opts name version w s :
  constructed opts name version w s ->
  conn_index (conn (world s)) = conn_index (conn w).
Proof.
  unfold constructed, new_Browser, Browser.constructor. unfold_m.
  destruct (opt_process opts); simpl; intros H; injection H as <-; simpl;
    rewrite <- ?app_assoc; reflexivity.
Qed.

(** The registry can also lose the entry of a live id: the id is
    created again while the handler of its destroyed event waits for
    the page to close, and the handler deletes the new entry when it
    goes on. *)
Lemma recreated_context_loses_its_entry :
  exists s,
    constructed plain_options "" "" fresh_world s /\
    let a := mkInfo "a" None "about:blank" in
    let sched := [ Arrive (ContextCreated a); Arrive (ContextDestroyed a);
                   Arrive (ContextCreated a); Resume 0; Resume 0 ] in
    let final := run_schedule sched (mkSys s []) in
    live (arrivals sched) "a" = true /\
    sys_suspended final = [] /\
    JsMap.entries "a" (registry (sys_state final)) = 0.
Proof.
  eexists. split; [reflexivity |]. repeat split; reflexivity.
Qed.

(** C1.  The events delivered to a newly constructed Browser are
    interleaved in any way with the continuations of the context-destroyed
    handlers, each of which runs from one [await] to the next.  Then the
    Target registry never contains two entries for one Browsing Context
    id.  If no context-created event for an id arrives while a
    context-destroyed handler for that id is pending, the registry
    contains exactly one entry for every currently-live id (an id whose
    last created or destroyed event is a created one).  If in addition
    every context-destroyed event that meets a registered Target gets
    past the connection's lookups of the context and of its top-level
    ancestor, then, once no handler is pending, the registry contains
    one entry for every live id and zero entries for every other id.
    Both conditions hold when the connection knows no context at the
    construction and the events follow the protocol: no id is created
    twice, and the parent of a nested context is created before it. *)
Theorem registry_tracks_live_contexts opts name version w s sched :
  constructed opts name version w s ->
  let x0 := mkSys s [] in
  let final := run_schedule sched x0 in
  let evs := arrivals sched in
  (forall id, JsMap.entries id (registry (sys_state final)) <= 1) /\
  (no_overlap sched x0 = true ->
   forall id, live evs id = true ->
     JsMap.entries id (registry (sys_state final)) = 1) /\
  (no_overlap sched x0 = true ->
   lookups_succeed sched x0 = true ->
   sys_suspended final = [] ->
   forall id,
     JsMap.entries id (registry (sys_state final)) = if live evs id then 1 else 0) /\
  (conn_index (conn w) = [] ->
   conformant [] evs = true ->
   no_overlap sched x0 = true /\
   lookups_succeed sched x0 = true /\
   (sys_suspended final = [] ->
    forall id,
      JsMap.entries id (registry (sys_state final)) = if live evs id then 1 else 0)).
Proof.
  intros C x0 final evs.
  destruct (constructed_facts _ _ _ _ _ C) as (R & K & _).
  assert (NE : at_last (collection (sys_state x0)) <> None).
  { simpl. rewrite K. discriminate. }
  assert (LE : forall id, JsMap.entries id (registry (sys_state x0)) <= 1).
  { intros id. subst x0. cbn [sys_state]. rewrite R. unfold JsMap.entries.
    simpl. auto. }
  assert (LIVE : no_overlap sched x0 = true ->
                 forall id, live evs id = true ->
                   JsMap.entries id (registry (sys_state final)) = 1).
  { intros NO id B.
    apply (run_schedule_live id sched x0 false NE LE NO); [discriminate | exact B]. }
  assert (EXACT : no_overlap sched x0 = true ->
                  lookups_succeed sched x0 = true ->
                  sys_suspended final = [] ->
                  forall id,
                    JsMap.entries id (registry (sys_state final)) =
                    if live evs id then 1 else 0).
  { intros NO LS Q id. destruct (live evs id) eqn:B.
    - now apply LIVE.
    - destruct (run_schedule_dead id sched x0 false NE LE LS) as [D|D]; auto.
      + intros _. left. simpl. rewrite R. reflexivity.
      + unfold suspended_for in D. fold final in D. rewrite Q in D.
        discriminate. }
  split; [|split; [|split]]; auto.
  - now apply run_schedule_bounded.
  - intros I CF.
    assert (RS : resolved [] x0).
    { unfold resolved. simpl. rewrite (constructed_index _ _ _ _ _ C), I, R.
      repeat split; auto. discriminate. }
    destruct (conformant_orderly sched [] x0 RS CF) as (NO & LS).
    auto.
Qed.

Lemma registry_tracks_live_contexts_witness :
  exists s,
    constructed plain_options "" "" fresh_world s /\
    let top := mkInfo "top" None "about:blank" in
    let frame := mkInfo "frame" (Some "top") "about:blank" in
    let other := mkInfo "other" None "about:blank" in
    let sched := [ Arrive (ContextCreated top); Arrive (ContextCreated frame);
                   Arrive (ContextDestroyed frame); Resume 0;
                   Arrive (ContextCreated other); Resume 0 ] in
    let final := run_schedule sched (mkSys s []) in
    JsMap.entries "top" (registry (sys_state final)) = 1 /\
    JsMap.entries "frame" (registry (sys_state final)) = 0 /\
    JsMap.entries "other" (registry (sys_state final)) = 1.
Proof.
  eexists. split; [reflexivity |]. cbv zeta.
  match goal with
  | |- context [run_schedule ?sched (mkSys ?s [])] =>
      destruct (registry_tracks_live_contexts plain_options "" "" fresh_world
                  s sched eq_refl) as (_ & _ & _ & E)
  end.
  destruct (E eq_refl eq_refl) as (_ & _ & X).
  split; [exact (X eq_refl "top") |].
  split; [exact (X eq_refl "frame") | exact (X eq_refl "other")].
Defined.
